(** * Difficulty-aware scoring: a shallow embedding of [lib/difficulty-aware-scorer.ts]

    The scorer is a handful of pure TypeScript functions over two arrays, the
    learner's responses and the questions they answer, paired by position.

    Modelling choices, used throughout:
    - a JavaScript [number] holding a score, a confidence or a time is a real
      number ([R]): the arithmetic is the exact one, without binary64
      rounding; a counter that is only ever incremented is a [nat].  The
      properties stated on these definitions are counts, bounds and relations
      among the outputs, which rounding does not change.  Where an output is
      decided by the rounding itself (the rounded confidence score, the
      calibration test of the recommendations), [Module Binary64] embeds the
      function on the primitive binary64 numbers and the property is stated
      there;
    - an array is a [list]; [xs[i]] is [nth_error xs i], and [undefined]
      (an index past the end) is [None];
    - the [Map] of [computeConceptMastery] iterates in insertion order, so it
      is an association list kept in insertion order;
    - [Question.difficulty] has the declared type ["easy" | "moderate" | "hard"]
      and is the three-constructor type [Tier]; [toLowerCase] is the identity
      on these three strings. *)

From Stdlib Require Import String List Bool Arith Lia.
From Stdlib Require Import ZArith Reals Lra.
From Stdlib Require Import Sorted Permutation.
From Stdlib Require PrimFloat FloatClass.
Import ListNotations.

Open Scope R_scope.

(** ** Data model *)

Inductive Tier : Type := easy | moderate | hard.

Definition Tier_eqb (a b : Tier) : bool :=
  match a, b with
  | easy, easy | moderate, moderate | hard, hard => true
  | _, _ => false
  end.

(** The fields of [Question] and [QuestionResponse] that the scorer reads. *)
Record Question : Type := mkQuestion {
  topic : string;
  difficulty : Tier
}.

Record QuestionResponse : Type := mkResponse {
  is_correct : bool;
  user_confidence : R;
  total_time : R
}.

(** [interface DifficultyScore].  The field [difficulty] of the source is
    [score_difficulty] here, the name being taken by [Question]. *)
Record DifficultyScore : Type := mkDifficultyScore {
  score_difficulty : Tier;
  total_questions : nat;
  correct : nat;
  accuracy : R;
  avg_confidence : R;
  avg_time : R
}.

(** [Record<string, DifficultyScore>] with exactly the keys [easy],
    [moderate] and [hard], in the order the object literal declares them. *)
Record Scores : Type := mkScores {
  scores_easy : DifficultyScore;
  scores_moderate : DifficultyScore;
  scores_hard : DifficultyScore
}.

(** [scores[difficulty]] *)
Definition score_of (scores : Scores) (d : Tier) : DifficultyScore :=
  match d with
  | easy => scores_easy scores
  | moderate => scores_moderate scores
  | hard => scores_hard scores
  end.

(** Writing through the reference [scores[difficulty]]. *)
Definition set_score (scores : Scores) (d : Tier) (s : DifficultyScore) : Scores :=
  match d with
  | easy => mkScores s (scores_moderate scores) (scores_hard scores)
  | moderate => mkScores (scores_easy scores) s (scores_hard scores)
  | hard => mkScores (scores_easy scores) (scores_moderate scores) s
  end.

(** ** Number and array helpers *)

(** The comparisons [x >= y], [x > y] and [x < y] on numbers, as booleans. *)
Definition Rgeb (x y : R) : bool := if Rge_dec x y then true else false.
Definition Rgtb (x y : R) : bool := if Rgt_dec x y then true else false.
Definition Rltb (x y : R) : bool := if Rlt_dec x y then true else false.

(** [xs.forEach((x, idx) => ...)] threading the state the callback mutates;
    [idx] starts at [start] and grows by one per element. *)
Fixpoint forEach_from {A St : Type} (f : St -> A -> nat -> St)
    (start : nat) (xs : list A) (s : St) : St :=
  match xs with
  | [] => s
  | x :: rest => forEach_from f (S start) rest (f s x start)
  end.

Definition forEach {A St : Type} (f : St -> A -> nat -> St) (xs : list A) (s : St) : St :=
  forEach_from f 0 xs s.

(** ** computeDifficultyScores *)

Definition empty_score (d : Tier) : DifficultyScore :=
  mkDifficultyScore d 0 0 0 0 0.

Definition initial_scores : Scores :=
  mkScores (empty_score easy) (empty_score moderate) (empty_score hard).

(** The four updates the callback makes through [score], for a response
    whose question exists. *)
Definition add_to_bucket (scores : Scores) (response : QuestionResponse)
    (question : Question) : Scores :=
  let d := difficulty question in
  let score := score_of scores d in
  set_score scores d
    (mkDifficultyScore
       (score_difficulty score)
       (S (total_questions score))
       (if is_correct response then S (correct score) else correct score)
       (accuracy score)
       (avg_confidence score + user_confidence response)
       (avg_time score + total_time response)).

(** The body of the first [forEach]: [questions[idx]] is looked up, and
    [if (!question) return] leaves the scores as they are. *)
Definition bucket_response (questions : list Question)
    (scores : Scores) (response : QuestionResponse) (idx : nat) : Scores :=
  match nth_error questions idx with
  | None => scores
  | Some question => add_to_bucket scores response question
  end.

(** The body of the second [forEach], over [Object.values(scores)]. *)
Definition average_score (score : DifficultyScore) : DifficultyScore :=
  if (0 <? total_questions score)%nat then
    mkDifficultyScore
      (score_difficulty score)
      (total_questions score)
      (correct score)
      (INR (correct score) / INR (total_questions score) * 100)
      (avg_confidence score / INR (total_questions score))
      (avg_time score / INR (total_questions score))
  else score.

Definition computeDifficultyScores
    (responses : list QuestionResponse) (questions : list Question) : Scores :=
  let scores := forEach (bucket_response questions) responses initial_scores in
  mkScores (average_score (scores_easy scores))
           (average_score (scores_moderate scores))
           (average_score (scores_hard scores)).

(** ** computeConceptMastery *)

Inductive MasteryStatus : Type :=
  | mastered
  | partially_understood
  | needs_revision.

Definition MasteryStatus_eqb (a b : MasteryStatus) : bool :=
  match a, b with
  | mastered, mastered
  | partially_understood, partially_understood
  | needs_revision, needs_revision => true
  | _, _ => false
  end.

(** [interface ConceptMastery] *)
Record ConceptMastery : Type := mkConceptMastery {
  concept : string;
  easy_score : R;
  moderate_score : R;
  hard_score : R;
  overall_score : R;
  status : MasteryStatus;
  question_count : nat
}.

(** [{ correct: number; total: number }], the value of one tier of a topic. *)
Record TierCount : Type := mkTierCount {
  tc_correct : nat;
  tc_total : nat
}.

(** The value type of [conceptMap]. *)
Record ConceptData : Type := mkConceptData {
  data_easy : TierCount;
  data_moderate : TierCount;
  data_hard : TierCount
}.

(** [conceptData[difficulty]] *)
Definition data_of (data : ConceptData) (d : Tier) : TierCount :=
  match d with
  | easy => data_easy data
  | moderate => data_moderate data
  | hard => data_hard data
  end.

Definition set_data (data : ConceptData) (d : Tier) (c : TierCount) : ConceptData :=
  match d with
  | easy => mkConceptData c (data_moderate data) (data_hard data)
  | moderate => mkConceptData (data_easy data) c (data_hard data)
  | hard => mkConceptData (data_easy data) (data_moderate data) c
  end.

(** [Map<string, ...>]: the entries in insertion order, one per key. *)
Definition ConceptMap : Type := list (string * ConceptData).

Fixpoint Map_get (m : ConceptMap) (k : string) : option ConceptData :=
  match m with
  | [] => None
  | (k', v) :: rest => if String.eqb k' k then Some v else Map_get rest k
  end.

Definition Map_has (m : ConceptMap) (k : string) : bool :=
  match Map_get m k with Some _ => true | None => false end.

(** [Map.prototype.set]: an existing key keeps its place, a new one goes last. *)
Fixpoint Map_set (m : ConceptMap) (k : string) (v : ConceptData) : ConceptMap :=
  match m with
  | [] => [(k, v)]
  | (k', v') :: rest =>
      if String.eqb k' k then (k', v) :: rest else (k', v') :: Map_set rest k v
  end.

Definition empty_count : TierCount := mkTierCount 0 0.

Definition empty_data : ConceptData :=
  mkConceptData empty_count empty_count empty_count.

(** The callback's two increments on [conceptData[difficulty]]. *)
Definition count_response (data : ConceptData) (d : Tier) (response : QuestionResponse)
    : ConceptData :=
  let c := data_of data d in
  set_data data d
    (mkTierCount
       (if is_correct response then S (tc_correct c) else tc_correct c)
       (S (tc_total c))).

(** The grouping of one response whose question exists.
    [conceptMap.get(concept)] returns the object the map holds, so the
    increments are an update of the entry in place; the [None] branch is
    never taken, the key having just been set. *)
Definition add_to_concept (conceptMap : ConceptMap) (response : QuestionResponse)
    (question : Question) : ConceptMap :=
  let concept := topic question in
  let d := difficulty question in
  let conceptMap :=
    if negb (Map_has conceptMap concept)
    then Map_set conceptMap concept empty_data
    else conceptMap in
  match Map_get conceptMap concept with
  | Some conceptData =>
      Map_set conceptMap concept (count_response conceptData d response)
  | None => conceptMap
  end.

(** The body of the grouping [forEach], with the same guard as above. *)
Definition group_response (questions : list Question)
    (conceptMap : ConceptMap) (response : QuestionResponse) (idx : nat) : ConceptMap :=
  match nth_error questions idx with
  | None => conceptMap
  | Some question => add_to_concept conceptMap response question
  end.

(** [total > 0 ? (correct / total) * 100 : 0] *)
Definition tier_score (c : TierCount) : R :=
  if (0 <? tc_total c)%nat then INR (tc_correct c) / INR (tc_total c) * 100 else 0.

(** The body of [conceptMap.forEach]: the entry pushed for one topic.  The
    scores are exact; the code's binary64 scores can differ from them in the
    last place, so what is stated of an entry relates its own fields. *)
Definition mastery_entry (entry : string * ConceptData) : ConceptMastery :=
  let (concept, data) := entry in
  let easyScore := tier_score (data_easy data) in
  let moderateScore := tier_score (data_moderate data) in
  let hardScore := tier_score (data_hard data) in
  let totalQuestions :=
    (tc_total (data_easy data) + tc_total (data_moderate data)
     + tc_total (data_hard data))%nat in
  let overallScore := easyScore * 0.3 + moderateScore * 0.4 + hardScore * 0.3 in
  let status :=
    if Rgeb overallScore 80 then mastered
    else if Rgeb overallScore 50 then partially_understood
    else needs_revision in
  mkConceptMastery concept easyScore moderateScore hardScore
    overallScore status totalQuestions.

(** [Array.prototype.sort(comparefn)].  The sort is stable and, for a
    consistent comparator, its result is the one stable ordering of the
    array; it is computed here by insertion from the right.  An element [x]
    that stood before [y] moves behind it only when [comparefn(x, y) > 0]. *)
Fixpoint sort_insert {A : Type} (comparefn : A -> A -> R) (x : A) (l : list A) : list A :=
  match l with
  | [] => [x]
  | y :: rest =>
      if Rgtb (comparefn x y) 0
      then y :: sort_insert comparefn x rest
      else x :: y :: rest
  end.

Definition Array_sort {A : Type} (comparefn : A -> A -> R) (l : list A) : list A :=
  fold_right (sort_insert comparefn) [] l.

(** [(a, b) => b.overall_score - a.overall_score] *)
Definition by_overall_score_desc (a b : ConceptMastery) : R :=
  overall_score b - overall_score a.

Definition computeConceptMastery
    (responses : list QuestionResponse) (questions : list Question)
    : list ConceptMastery :=
  let conceptMap := forEach (group_response questions) responses [] in
  let masteryList := map mastery_entry conceptMap in
  Array_sort by_overall_score_desc masteryList.

(** ** computeOverallConfidenceScore

    Over exact numbers, for the range of the score; the rounded value the
    code returns is that of [Binary64.computeOverallConfidenceScore]. *)

(** [Math.round]: the nearest integer, a tie going up; [up x] is the integer
    with [x < up x <= x + 1], so [up x - 1] is the floor of [x]. *)
Definition Math_floor (x : R) : R := IZR (up x - 1).

Definition Math_round (x : R) : R := Math_floor (x + 1 / 2).

Definition computeOverallConfidenceScore
    (responses : list QuestionResponse) (difficultyScores : Scores) : R :=
  if (length responses =? 0)%nat then 0
  else
    let totalCorrect := length (filter is_correct responses) in
    let accuracy := INR totalCorrect / INR (length responses) * 100 in
    let correctnessValues :=
      map (fun r => if is_correct r then 1 else 0) responses in
    let avgCorrectness :=
      fold_left (fun a b => a + b) correctnessValues 0
      / INR (length correctnessValues) in
    let variance :=
      fold_left (fun acc val => acc + (val - avgCorrectness) ^ 2) correctnessValues 0
      / INR (length correctnessValues) in
    let consistency := Rmax 0 (100 - sqrt variance * 100) in
    let avgTime :=
      fold_left (fun sum r => sum + total_time r) responses 0
      / INR (length responses) in
    let speedScore := Rmax 0 (100 - avgTime / 120 * 100) in
    let confidenceScore := accuracy * 0.6 + consistency * 0.25 + speedScore * 0.15 in
    Math_round confidenceScore.

(** ** determineUnderstandingLevel *)

Inductive UnderstandingLevel : Type := job_ready | improving | beginner.

Definition determineUnderstandingLevel (difficultyScores : Scores) : UnderstandingLevel :=
  let easyAccuracy := accuracy (scores_easy difficultyScores) in
  let moderateAccuracy := accuracy (scores_moderate difficultyScores) in
  let hardAccuracy := accuracy (scores_hard difficultyScores) in
  if Rgeb easyAccuracy 80 && Rgeb moderateAccuracy 70 && Rgeb hardAccuracy 60
  then job_ready
  else if Rgeb easyAccuracy 70 && Rgeb moderateAccuracy 60
  then improving
  else beginner.

(** ** generateRecommendations

    Over exact numbers, for the tier messages, which compare one accuracy
    with a constant; the calibration test, which compares two computed
    means, is decided as in the code by [Binary64.generateRecommendations]. *)

(** [xs.push(x)], [xs.slice(from, to)] for [0 <= from <= to], [xs.join(sep)] *)
Definition push {A : Type} (xs : list A) (x : A) : list A := xs ++ [x].

Definition slice {A : Type} (from to : nat) (xs : list A) : list A :=
  firstn (to - from) (skipn from xs).

Definition join (sep : string) (xs : list string) : string := String.concat sep xs.

Definition hard_message : string :=
  "Practice complex problem-solving and multi-step reasoning to strengthen Hard-level performance.".

Definition moderate_message : string :=
  "Reinforce conceptual learning by working through more application-based scenarios.".

Definition easy_message : string :=
  "Review fundamental definitions and terminology to solidify your foundation.".

(** The template literal naming the weak topics. *)
Definition weak_message (topWeak : string) : string :=
  ("Focus revision efforts on: " ++ topWeak
   ++ ". These concepts require more attention.")%string.

Definition overconfident_message : string :=
  "Work on self-assessment calibration. Your confidence often exceeds your accuracy.".

Definition underconfident_message : string :=
  "Build confidence in your knowledge. You're performing better than you think!".

Definition default_message : string :=
  "Excellent performance! Continue practicing advanced topics to maintain mastery.".

Definition generateRecommendations
    (difficultyScores : Scores) (conceptMastery : list ConceptMastery) : list string :=
  let recommendations : list string := [] in
  let easyAccuracy := accuracy (scores_easy difficultyScores) in
  let moderateAccuracy := accuracy (scores_moderate difficultyScores) in
  let hardAccuracy := accuracy (scores_hard difficultyScores) in
  let recommendations :=
    if Rltb hardAccuracy 60 then push recommendations hard_message
    else recommendations in
  let recommendations :=
    if Rltb moderateAccuracy 60 then push recommendations moderate_message
    else recommendations in
  let recommendations :=
    if Rltb easyAccuracy 70 then push recommendations easy_message
    else recommendations in
  let weakConcepts :=
    filter (fun c => MasteryStatus_eqb (status c) needs_revision) conceptMastery in
  let recommendations :=
    if (0 <? length weakConcepts)%nat then
      let topWeak := join ", " (map concept (slice 0 2 weakConcepts)) in
      push recommendations (weak_message topWeak)
    else recommendations in
  let avgConfidence :=
    (avg_confidence (scores_easy difficultyScores)
     + avg_confidence (scores_moderate difficultyScores)
     + avg_confidence (scores_hard difficultyScores)) / 3 in
  let avgAccuracy := (easyAccuracy + moderateAccuracy + hardAccuracy) / 3 in
  let recommendations :=
    if Rgtb avgConfidence (avgAccuracy + 20)
    then push recommendations overconfident_message
    else if Rgtb avgAccuracy (avgConfidence + 20)
    then push recommendations underconfident_message
    else recommendations in
  let recommendations :=
    if (length recommendations =? 0)%nat then push recommendations default_message
    else recommendations in
  slice 0 3 recommendations.

(** ** generateInterpretation *)

Definition industry_ready_interpretation : string :=
  "Industry-ready understanding with strong foundation and application skills.".

Definition basics_clear_interpretation : string :=
  "Basics clear, but concepts need more work. Focus on practical application.".

Definition conceptually_strong_interpretation : string :=
  "Conceptually strong, but lacks deep application experience. Practice complex scenarios.".

Definition solid_foundation_interpretation : string :=
  "Solid foundational understanding with room for refinement in advanced topics.".

Definition weak_foundation_interpretation : string :=
  "Foundation needs strengthening. Review core concepts before advancing.".

Definition developing_interpretation : string :=
  "Developing understanding across difficulty levels. Consistent practice will build mastery.".

Definition generateInterpretation (difficultyScores : Scores) : string :=
  let easyAccuracy := accuracy (scores_easy difficultyScores) in
  let moderateAccuracy := accuracy (scores_moderate difficultyScores) in
  let hardAccuracy := accuracy (scores_hard difficultyScores) in
  if Rgeb easyAccuracy 80 && Rgeb moderateAccuracy 80 && Rgeb hardAccuracy 70
  then industry_ready_interpretation
  else if Rgeb easyAccuracy 75 && Rltb moderateAccuracy 60
  then basics_clear_interpretation
  else if Rgeb moderateAccuracy 75 && Rltb hardAccuracy 50
  then conceptually_strong_interpretation
  else if Rgeb easyAccuracy 60 && Rgeb moderateAccuracy 60 && Rgeb hardAccuracy 50
  then solid_foundation_interpretation
  else if Rltb easyAccuracy 50 || Rltb moderateAccuracy 50
  then weak_foundation_interpretation
  else developing_interpretation.

(** ** computeDifficultyAwareAnalytics *)

(** [interface DifficultyAwareAnalytics].  The fields [easy], [moderate] and
    [hard] of the source are [analytics_easy], [analytics_moderate] and
    [analytics_hard] here, the names being the constructors of [Tier].
    [confidence_alignment] is the one field the code computes by a division
    that no test of the length guards: [None] stands for the value that is
    not a finite number. *)
Record DifficultyAwareAnalytics : Type := mkAnalytics {
  analytics_easy : DifficultyScore;
  analytics_moderate : DifficultyScore;
  analytics_hard : DifficultyScore;
  concept_mastery : list ConceptMastery;
  overall_confidence_score : R;
  overall_accuracy : R;
  overall_understanding_level : UnderstandingLevel;
  accuracy_consistency : R;
  time_consistency : R;
  confidence_alignment : option R;
  interpretation : string;
  recommendations : list string
}.

(** [Math.max(a, b, c)] and [Math.min(a, b, c)] *)
Definition Math_max3 (a b c : R) : R := Rmax a (Rmax b c).

Definition Math_min3 (a b c : R) : R := Rmin a (Rmin b c).

(** [x / xs.length] for a finite [x].  With an empty array the divisor is 0
    and the quotient is [NaN] or an infinity, not a finite number: [None]. *)
Definition divide_by_length (x : R) (n : nat) : option R :=
  match n with
  | O => None
  | S _ => Some (x / INR n)
  end.

(** The callback of the alignment [reduce]. *)
Definition add_alignment (sum : R) (r : QuestionResponse) : R :=
  let expectedConfidence := if is_correct r then 80 else 40 in
  let diff := Rabs (user_confidence r - expectedConfidence) in
  sum + (100 - diff).

Definition computeDifficultyAwareAnalytics
    (responses : list QuestionResponse) (questions : list Question)
    : DifficultyAwareAnalytics :=
  let difficultyScores := computeDifficultyScores responses questions in
  let conceptMastery := computeConceptMastery responses questions in
  let overallConfidenceScore :=
    computeOverallConfidenceScore responses difficultyScores in
  let understandingLevel := determineUnderstandingLevel difficultyScores in
  let interpretation := generateInterpretation difficultyScores in
  let recommendations := generateRecommendations difficultyScores conceptMastery in
  let totalCorrect := length (filter is_correct responses) in
  let overallAccuracy :=
    if (0 <? length responses)%nat
    then INR totalCorrect / INR (length responses) * 100
    else 0 in
  let accuracyConsistency :=
    100 - (Math_max3
             (accuracy (scores_easy difficultyScores))
             (accuracy (scores_moderate difficultyScores))
             (accuracy (scores_hard difficultyScores))
           - Math_min3
               (accuracy (scores_easy difficultyScores))
               (accuracy (scores_moderate difficultyScores))
               (accuracy (scores_hard difficultyScores))) in
  let timeConsistency :=
    100 - Rmin 100
            ((Rabs (avg_time (scores_easy difficultyScores)
                    - avg_time (scores_moderate difficultyScores))
              + Rabs (avg_time (scores_moderate difficultyScores)
                      - avg_time (scores_hard difficultyScores))) / 2) in
  let confidenceAlignment :=
    divide_by_length (fold_left add_alignment responses 0) (length responses) in
  mkAnalytics
    (scores_easy difficultyScores)
    (scores_moderate difficultyScores)
    (scores_hard difficultyScores)
    conceptMastery
    overallConfidenceScore
    (Math_round overallAccuracy)
    understandingLevel
    (Math_round accuracyConsistency)
    (Math_round timeConsistency)
    (option_map Math_round confidenceAlignment)
    interpretation
    recommendations.

(** ** The question generation orchestrator

    The generator, the validator and the auto-fixer live in the Python
    backend ([backend/app/services/question_generator.py] and
    [question_validator.py]).  The repository's TypeScript sources only call
    that backend, and its documents describe it, so every definition of this
    module is written from the specification (sections 3, 4.1, 4.2, 4.3)
    and from [DIFFICULTY_IMPLEMENTATION.md]. *)
Module Orchestrator.

(** Modelled from the spec: the segment of a question, a field of the
    backend's question record ([question_generator.py], not in the sources). *)
Inductive Segment : Type := MCQ | MCQ_REASONING | ASSERTION_REASON.

Definition Segment_eqb (a b : Segment) : bool :=
  match a, b with
  | MCQ, MCQ | MCQ_REASONING, MCQ_REASONING
  | ASSERTION_REASON, ASSERTION_REASON => true
  | _, _ => false
  end.

(** Modelled from the spec: the Question record of the data model, which the
    backend's [question_generator.py] builds and the draft generator returns
    unvalidated. *)
Record Question : Type := mkQuestion {
  question_id : string;
  prompt : string;
  options : list string;
  correct_answer : string;
  topic : string;
  difficulty : Tier;
  segment : Segment;
  reasoning_required : bool
}.

(** Modelled from the spec: the segment a slot requires, step 1 of the
    orchestrator in [question_generator.py] and the alternation logic quoted
    in the implementation notes ([question_index % 2 == 0]): MCQ for easy and
    moderate, and for hard MCQ_REASONING at an even zero-based index,
    ASSERTION_REASON at an odd one. *)
Definition required_segment (tier : Tier) (i : nat) : Segment :=
  match tier with
  | easy | moderate => MCQ
  | hard => if Nat.even i then MCQ_REASONING else ASSERTION_REASON
  end.

(** Modelled from the spec: the [reasoning_required] flag a slot requires in
    [question_validator.py]; reasoning is required of MCQ_REASONING only. *)
Definition required_reasoning (tier : Tier) (i : nat) : bool :=
  match required_segment tier i with
  | MCQ_REASONING => true
  | _ => false
  end.

(** Modelled from the spec: the option labels A to D of the validator. *)
Definition labels : list string := ["A"; "B"; "C"; "D"]%string.

(** Modelled from the spec: an option text carries its label as a prefix,
    as in [A) ...] of the documented questions. *)
Definition has_label (l o : string) : bool := String.prefix (l ++ ")") o.

(** Modelled from the spec: exactly four options, labelled A, B, C, D in
    this order. *)
Definition labelled_in_order (opts : list string) : bool :=
  (length opts =? 4)%nat
  && forallb (fun lo => has_label (fst lo) (snd lo)) (combine labels opts).

(** Modelled from the spec: the four options of fixed meaning of an
    assertion-reason question, in the documented wording. *)
Definition assertion_reason_options : list string :=
  [ "A) Both A and R are true, and R is the correct explanation of A";
    "B) Both A and R are true, but R is NOT the correct explanation of A";
    "C) A is true, but R is false";
    "D) A is false, but R is true" ]%string.

(** Modelled from the spec: two option lists with the same texts. *)
Definition same_texts (a b : list string) : bool :=
  (length a =? length b)%nat
  && forallb (fun p => String.eqb (fst p) (snd p)) (combine a b).

(** Modelled from the spec: the prompt has a part, as a substring. *)
Definition contains (part s : string) : bool :=
  match String.index 0 part s with Some _ => true | None => false end.

(** Modelled from the spec: a violation of [question_validator.py] names the
    field at fault.  Its expected and actual values decide nothing
    downstream and are left out. *)
Inductive Violation : Type :=
  | bad_segment
  | bad_option_count
  | bad_option_labels
  | bad_option_meaning
  | bad_correct_answer
  | bad_reasoning_required
  | bad_prompt_structure.

Definition Violation_eqb (a b : Violation) : bool :=
  match a, b with
  | bad_segment, bad_segment
  | bad_option_count, bad_option_count
  | bad_option_labels, bad_option_labels
  | bad_option_meaning, bad_option_meaning
  | bad_correct_answer, bad_correct_answer
  | bad_reasoning_required, bad_reasoning_required
  | bad_prompt_structure, bad_prompt_structure => true
  | _, _ => false
  end.

(** Modelled from the spec: membership in, and building of, violation lists. *)
Definition listed (v : Violation) (vs : list Violation) : bool :=
  existsb (Violation_eqb v) vs.

Definition check (ok : bool) (v : Violation) : list Violation :=
  if ok then [] else [v].

(** Modelled from the spec: [validate_question] of [question_validator.py],
    the rules for a draft meant for slot [i] of a batch of tier [tier]; the
    empty list means valid. *)
Definition validate (tier : Tier) (i : nat) (q : Question) : list Violation :=
  let required := required_segment tier i in
  check (Segment_eqb (segment q) required) bad_segment
  ++ check (length (options q) =? 4)%nat bad_option_count
  ++ check (labelled_in_order (options q)) bad_option_labels
  ++ check (existsb (String.eqb (correct_answer q)) labels
            && existsb (has_label (correct_answer q)) (options q))
       bad_correct_answer
  ++ check (Bool.eqb (reasoning_required q) (required_reasoning tier i))
       bad_reasoning_required
  ++ match required with
     | ASSERTION_REASON =>
         check (same_texts (options q) assertion_reason_options) bad_option_meaning
         ++ check (contains "Assertion" (prompt q) && contains "Reason" (prompt q))
              bad_prompt_structure
     | _ => []
     end.

(** Modelled from the spec: the text of an option without its label prefix,
    if it has one; a helper of the auto-fixer's re-lettering. *)
Definition strip_label (o : string) : string :=
  if existsb (fun l => has_label l o) labels
  then
    let rest := String.substring 2 (String.length o - 2) o in
    if String.prefix " " rest
    then String.substring 1 (String.length rest - 1) rest
    else rest
  else o.

(** Modelled from the spec: an option re-lettered with the given label. *)
Definition relabel (lo : string * string) : string :=
  (fst lo ++ ") " ++ strip_label (snd lo))%string.

(** Modelled from the spec: the auto-fixer's coercion of an answer given as
    an option text, the label of the first option that reads so, with or
    without its prefix; [None] when no option does. *)
Fixpoint label_of_text (answer : string) (labelled : list (string * string))
    : option string :=
  match labelled with
  | [] => None
  | (l, o) :: rest =>
      if String.eqb answer o || String.eqb answer (strip_label o)
      then Some l
      else label_of_text answer rest
  end.

(** Modelled from the spec: [auto_fix_question] of [question_validator.py].
    It re-letters four options into
    the canonical order, turns an answer given as an option text into its
    label, and sets the reasoning flag the slot requires.  It invents no
    option text and no assertion or reason, and it leaves the segment as the
    draft has it.  The residual violations are those of the repaired draft. *)
Definition auto_fix (tier : Tier) (i : nat) (q : Question) (violations : list Violation)
    : Question * list Violation :=
  let opts :=
    if listed bad_option_labels violations && (length (options q) =? 4)%nat
    then map relabel (combine labels (options q))
    else options q in
  let answer :=
    if listed bad_correct_answer violations
    then match label_of_text (correct_answer q) (combine labels opts) with
         | Some l => l
         | None => correct_answer q
         end
    else correct_answer q in
  let flag :=
    if listed bad_reasoning_required violations
    then required_reasoning tier i
    else reasoning_required q in
  let repaired :=
    mkQuestion (question_id q) (prompt q) opts answer (topic q)
      (difficulty q) (segment q) flag in
  (repaired, validate tier i repaired).

(** Modelled from the spec: the static question [question_generator.py]
    substitutes for a slot when every attempt failed, one per (tier, segment)
    pair; its id says so.  The wording of the three questions is not given
    by the documents and is a placeholder. *)
Definition fallback (tier : Tier) (seg : Segment) : Question :=
  match seg with
  | ASSERTION_REASON =>
      mkQuestion "fallback-assertion-reason"
        "Assertion (A): Practice improves recall. Reason (R): Repetition strengthens memory."
        assertion_reason_options "A" "general" tier ASSERTION_REASON false
  | MCQ_REASONING =>
      mkQuestion "fallback-mcq-reasoning"
        "Which statement best describes the topic? Explain your reasoning."
        ["A) The first statement"; "B) The second statement";
         "C) The third statement"; "D) The fourth statement"]%string
        "A" "general" tier MCQ_REASONING true
  | MCQ =>
      mkQuestion "fallback-mcq"
        "Which statement best describes the topic?"
        ["A) The first statement"; "B) The second statement";
         "C) The third statement"; "D) The fourth statement"]%string
        "A" "general" tier MCQ false
  end.

(** Modelled from the spec: the external draft generator.  It is asked with
    the tier, the segment and the topic; being stochastic, what it answers
    may also depend on which call this is, the first argument. *)
Definition Generator : Type := nat -> Tier -> Segment -> string -> Question.

(** Modelled from the spec: the retry bound, three attempts per slot. *)
Definition retry_bound : nat := 3.

(** Modelled from the spec: steps 2 to 5 of [question_generator.py] for one
    slot.  Each attempt is a
    fresh call of the generator; a draft is taken when it is valid, or valid
    once repaired; when [attempts] attempts have failed the fallback is
    taken.  The number of generator calls made so far is threaded along. *)
Fixpoint fill_slot (attempts : nat) (gen : Generator) (tier : Tier) (i : nat)
    (subject : string) (calls : nat) : Question * nat :=
  match attempts with
  | O => (fallback tier (required_segment tier i), calls)
  | S remaining =>
      let draft := gen calls tier (required_segment tier i) subject in
      match validate tier i draft with
      | [] => (draft, S calls)
      | violations =>
          match auto_fix tier i draft violations with
          | (repaired, []) => (repaired, S calls)
          | (_, _ :: _) => fill_slot remaining gen tier i subject (S calls)
          end
      end
  end.

(** Modelled from the spec: the slots [first] to [first + count - 1] of a
    batch, filled in order. *)
Fixpoint fill_slots (gen : Generator) (tier : Tier) (subject : string)
    (first count calls : nat) : list Question :=
  match count with
  | O => []
  | S rest =>
      let (q, calls') := fill_slot retry_bound gen tier first subject calls in
      q :: fill_slots gen tier subject (S first) rest calls'
  end.

(** Modelled from the spec: the orchestrator's contract, a batch of [count]
    questions of tier [tier], slots numbered from 0. *)
Definition generate_batch (gen : Generator) (subject : string) (tier : Tier)
    (count : nat) : list Question :=
  fill_slots gen tier subject 0 count 0.

End Orchestrator.

(** ** The vocabulary of the properties *)

(** A call completes by returning a value or by throwing an error.  The
    scorer has no [throw] statement, and on arguments of its declared types
    none of its expressions throws: reading [questions[idx]] past the end
    gives [undefined], which the guard tests before any field is read. *)
Inductive Completion (A : Type) : Type :=
  | Returns (value : A)
  | Throws (error : string).

Arguments Returns {A} value.
Arguments Throws {A} error.

Definition call_computeDifficultyScores
    (responses : list QuestionResponse) (questions : list Question)
    : Completion Scores :=
  Returns (computeDifficultyScores responses questions).

Definition call_computeConceptMastery
    (responses : list QuestionResponse) (questions : list Question)
    : Completion (list ConceptMastery) :=
  Returns (computeConceptMastery responses questions).

(** A scoring call that rejects every pair of arrays of different lengths. *)
Definition fails_on_mismatch {A : Type}
    (call : list QuestionResponse -> list Question -> Completion A) : Prop :=
  forall responses questions,
    length responses <> length questions ->
    exists error, call responses questions = Throws error.

(** The responses that have a question at their index, each with it. *)
Definition answered (responses : list QuestionResponse) (questions : list Question)
    : list (QuestionResponse * Question) :=
  combine responses questions.

(** How many answered questions are of tier [d]. *)
Definition tier_total (d : Tier) (pairs : list (QuestionResponse * Question)) : nat :=
  length (filter (fun p => Tier_eqb (difficulty (snd p)) d) pairs).

(** How many answered questions are on topic [c] at tier [d], and how many
    of those were answered correctly. *)
Definition on_topic_tier (c : string) (d : Tier) (p : QuestionResponse * Question) : bool :=
  String.eqb (topic (snd p)) c && Tier_eqb (difficulty (snd p)) d.

Definition topic_total (c : string) (d : Tier)
    (pairs : list (QuestionResponse * Question)) : nat :=
  length (filter (on_topic_tier c d) pairs).

Definition topic_correct (c : string) (d : Tier)
    (pairs : list (QuestionResponse * Question)) : nat :=
  length (filter (fun p => is_correct (fst p)) (filter (on_topic_tier c d) pairs)).

(** The per-tier score of a mastery entry. *)
Definition score_at (m : ConceptMastery) (d : Tier) : R :=
  match d with
  | easy => easy_score m
  | moderate => moderate_score m
  | hard => hard_score m
  end.

(** Each string once, in the order of first appearance. *)
Fixpoint first_occurrences (l : list string) : list string :=
  match l with
  | [] => []
  | x :: rest => x :: filter (fun y => negb (String.eqb y x)) (first_occurrences rest)
  end.

(** The topics in the order the responses first meet them. *)
Definition encounter_order (responses : list QuestionResponse) (questions : list Question)
    : list string :=
  first_occurrences (map (fun p => topic (snd p)) (answered responses questions)).

(** [a] stands somewhere before [b] in [l]. *)
Definition before {A : Type} (a b : A) (l : list A) : Prop :=
  exists l1 l2 l3, l = l1 ++ a :: l2 ++ b :: l3.

(** The sum and the mean of a list of numbers. *)
Definition total (l : list R) : R := fold_right Rplus 0 l.

Definition mean (l : list R) : R := total l / INR (length l).

(** The recommendation a condition contributes: one message or none. *)
Definition when (condition : bool) (message : string) : list string :=
  if condition then [message] else [].

(** The messages in the order the specification lists them, before the default and
    the truncation. *)
Definition candidate_messages (difficultyScores : Scores)
    (conceptMastery : list ConceptMastery) : list string :=
  let e := scores_easy difficultyScores in
  let m := scores_moderate difficultyScores in
  let h := scores_hard difficultyScores in
  let weak :=
    map concept
      (filter (fun c => MasteryStatus_eqb (status c) needs_revision) conceptMastery) in
  let avgConfidence := (avg_confidence e + avg_confidence m + avg_confidence h) / 3 in
  let avgAccuracy := (accuracy e + accuracy m + accuracy h) / 3 in
  when (Rltb (accuracy h) 60) hard_message
  ++ when (Rltb (accuracy m) 60) moderate_message
  ++ when (Rltb (accuracy e) 70) easy_message
  ++ match weak with
     | [] => []
     | _ => [weak_message (join ", " (firstn 2 weak))]
     end
  ++ (if Rgtb avgConfidence (avgAccuracy + 20) then [overconfident_message]
      else if Rgtb avgAccuracy (avgConfidence + 20) then [underconfident_message]
      else []).

(** ** The rounded outputs in binary64

    Two functions turn numbers into discrete outputs that the rounding of
    binary64 can decide: [computeOverallConfidenceScore] rounds a weighted
    sum to an integer, and [generateRecommendations] compares two means that
    may differ by exactly 20.  This module embeds them on the primitive
    binary64 numbers, operation by operation in the order of the source, so
    that they compute what the code computes. *)
Module Binary64.

Import PrimFloat.
#[local] Open Scope float_scope.
#[local] Set Warnings "-inexact-float".

(** A count as a [number]: the counter incremented [n] times from 0, exact
    for every array length. *)
Definition of_nat (n : nat) : float := Nat.iter n (fun x => x + 1) 0.

Definition is_nan (x : float) : bool := negb (x =? x).

(** [Math.max(a, b)]: [NaN] if either is, and [+0] above [-0]. *)
Definition Math_max (a b : float) : float :=
  if is_nan a || is_nan b then nan
  else if a <? b then b
  else if b <? a then a
  else match classify a with
       | FloatClass.NZero => b
       | _ => a
       end.

(** 2^52: from there on every binary64 number is an integer. *)
Definition two52 : float := 4503599627370496.

(** [Math.round]: the nearest integer, a tie going towards +infinity, and
    [-0] for a negative number that rounds to zero.  Below 2^52 in
    magnitude, [(a + 2^52) - 2^52] is an integer next to [a], from which the
    floor of [a] and the exact fraction [a - floor a] follow. *)
Definition Math_round (x : float) : float :=
  match classify x with
  | FloatClass.NaN | FloatClass.PInf | FloatClass.NInf
  | FloatClass.PZero | FloatClass.NZero => x
  | _ =>
      let a := abs x in
      if two52 <=? a then x
      else
        let near := (a + two52) - two52 in
        let floor := if a <? near then near - 1 else near in
        if 0 <? x
        then (if (a - floor) <? 0.5 then floor else floor + 1)
        else - (if (a - floor) <=? 0.5 then floor else floor + 1)
  end.

(** [Math.pow(x, 2)], taken as the product [x * x]. *)
Definition Math_pow2 (x : float) : float := x * x.

(** The records of the scorer, their numbers in binary64. *)
Record QuestionResponse : Type := mkResponse {
  is_correct : bool;
  user_confidence : float;
  total_time : float
}.

Record DifficultyScore : Type := mkDifficultyScore {
  score_difficulty : Tier;
  total_questions : nat;
  correct : nat;
  accuracy : float;
  avg_confidence : float;
  avg_time : float
}.

Record Scores : Type := mkScores {
  scores_easy : DifficultyScore;
  scores_moderate : DifficultyScore;
  scores_hard : DifficultyScore
}.

Record ConceptMastery : Type := mkConceptMastery {
  concept : string;
  easy_score : float;
  moderate_score : float;
  hard_score : float;
  overall_score : float;
  status : MasteryStatus;
  question_count : nat
}.

Definition computeOverallConfidenceScore
    (responses : list QuestionResponse) (difficultyScores : Scores) : float :=
  if (length responses =? 0)%nat then 0
  else
    let totalCorrect := length (filter is_correct responses) in
    let accuracy := of_nat totalCorrect / of_nat (length responses) * 100 in
    let correctnessValues :=
      map (fun r => if is_correct r then 1 else 0) responses in
    let avgCorrectness :=
      fold_left (fun a b => a + b) correctnessValues 0
      / of_nat (length correctnessValues) in
    let variance :=
      fold_left (fun acc val => acc + Math_pow2 (val - avgCorrectness))
        correctnessValues 0
      / of_nat (length correctnessValues) in
    let consistency := Math_max 0 (100 - sqrt variance * 100) in
    let avgTime :=
      fold_left (fun sum r => sum + total_time r) responses 0
      / of_nat (length responses) in
    let speedScore := Math_max 0 (100 - avgTime / 120 * 100) in
    let confidenceScore := accuracy * 0.6 + consistency * 0.25 + speedScore * 0.15 in
    Math_round confidenceScore.

Definition generateRecommendations
    (difficultyScores : Scores) (conceptMastery : list ConceptMastery) : list string :=
  let recommendations : list string := [] in
  let easyAccuracy := accuracy (scores_easy difficultyScores) in
  let moderateAccuracy := accuracy (scores_moderate difficultyScores) in
  let hardAccuracy := accuracy (scores_hard difficultyScores) in
  let recommendations :=
    if hardAccuracy <? 60 then push recommendations hard_message
    else recommendations in
  let recommendations :=
    if moderateAccuracy <? 60 then push recommendations moderate_message
    else recommendations in
  let recommendations :=
    if easyAccuracy <? 70 then push recommendations easy_message
    else recommendations in
  let weakConcepts :=
    filter (fun c => MasteryStatus_eqb (status c) needs_revision) conceptMastery in
  let recommendations :=
    if (0 <? length weakConcepts)%nat then
      let topWeak := join ", " (map concept (slice 0 2 weakConcepts)) in
      push recommendations (weak_message topWeak)
    else recommendations in
  let avgConfidence :=
    (avg_confidence (scores_easy difficultyScores)
     + avg_confidence (scores_moderate difficultyScores)
     + avg_confidence (scores_hard difficultyScores)) / 3 in
  let avgAccuracy := (easyAccuracy + moderateAccuracy + hardAccuracy) / 3 in
  let recommendations :=
    if avgAccuracy + 20 <? avgConfidence
    then push recommendations overconfident_message
    else if avgConfidence + 20 <? avgAccuracy
    then push recommendations underconfident_message
    else recommendations in
  let recommendations :=
    if (length recommendations =? 0)%nat then push recommendations default_message
    else recommendations in
  slice 0 3 recommendations.

(** *** The vocabulary of the properties, in binary64 *)

(** The sum of a list, added from the left starting at 0, its mean and its
    population standard deviation. *)
Definition total (l : list float) : float := fold_left add l 0.

Definition mean (l : list float) : float := total l / of_nat (length l).

Definition population_stddev (l : list float) : float :=
  sqrt (mean (map (fun x => (x - mean l) * (x - mean l)) l)).

(** The 0/1 correctness sequence of a session and its fraction correct. *)
Definition correctness (responses : list QuestionResponse) : list float :=
  map (fun r => if is_correct r then 1 else 0) responses.

Definition fraction_correct (responses : list QuestionResponse) : float :=
  of_nat (length (filter is_correct responses)) / of_nat (length responses).

(** The verdict of the calibration test: the mean confidence of the three
    tiers above their mean accuracy by more than 20, or below it by more
    than 20, or neither. *)
Definition mean_confidence (difficultyScores : Scores) : float :=
  (avg_confidence (scores_easy difficultyScores)
   + avg_confidence (scores_moderate difficultyScores)
   + avg_confidence (scores_hard difficultyScores)) / 3.

Definition mean_accuracy (difficultyScores : Scores) : float :=
  (accuracy (scores_easy difficultyScores)
   + accuracy (scores_moderate difficultyScores)
   + accuracy (scores_hard difficultyScores)) / 3.

Definition calibration_messages (difficultyScores : Scores) : list string :=
  if mean_accuracy difficultyScores + 20 <? mean_confidence difficultyScores
  then [overconfident_message]
  else if mean_confidence difficultyScores + 20 <? mean_accuracy difficultyScores
  then [underconfident_message]
  else [].

(** The names of the topics that need revision, in the order given. *)
Definition weak_topics (conceptMastery : list ConceptMastery) : list string :=
  map concept
    (filter (fun c => MasteryStatus_eqb (status c) needs_revision) conceptMastery).

(** The messages in the order the specification lists them, before the
    default and the truncation. *)
Definition candidate_messages (difficultyScores : Scores)
    (conceptMastery : list ConceptMastery) : list string :=
  when (accuracy (scores_hard difficultyScores) <? 60) hard_message
  ++ when (accuracy (scores_moderate difficultyScores) <? 60) moderate_message
  ++ when (accuracy (scores_easy difficultyScores) <? 70) easy_message
  ++ match weak_topics conceptMastery with
     | [] => []
     | topics => [weak_message (join ", " (firstn 2 topics))]
     end
  ++ calibration_messages difficultyScores.

(** *** Sessions *)

(** Ten correct responses of confidence 80 and 30 seconds each. *)
Definition scenario_ten_correct : list QuestionResponse :=
  repeat (mkResponse true 80 30) 10.

(** Thirteen responses of 52 seconds each, the first nine correct. *)
Definition session_nine_of_thirteen : list QuestionResponse :=
  repeat (mkResponse true 80 52) 9 ++ repeat (mkResponse false 80 52) 4.

(** Tiers with accuracies 70, 60, 61 and mean confidences 51, 100, 100:
    exactly 20 apart on average. *)
Definition scores_twenty_apart : Scores :=
  mkScores (mkDifficultyScore easy 10 7 70 51 10)
    (mkDifficultyScore moderate 10 6 60 100 10)
    (mkDifficultyScore hard 100 61 61 100 10).

End Binary64.

(** ** The loops as folds *)

(** The callbacks applied to a response paired with its question. *)
Definition bucket_pair (scores : Scores) (p : QuestionResponse * Question) : Scores :=
  add_to_bucket scores (fst p) (snd p).

Definition keys (m : ConceptMap) : list string := map fst m.

(** [conceptMap.get(k)], with the fresh entry for a key not yet set. *)
Definition get_or_empty (m : ConceptMap) (k : string) : ConceptData :=
  match Map_get m k with
  | Some data => data
  | None => empty_data
  end.

Definition group_pair (m : ConceptMap) (p : QuestionResponse * Question) : ConceptMap :=
  add_to_concept m (fst p) (snd p).

(** The concept map after grouping the given pairs, and their topics. *)
Definition concept_map_of (pairs : list (QuestionResponse * Question)) : ConceptMap :=
  fold_left group_pair pairs [].

Definition topics_of (pairs : list (QuestionResponse * Question)) : list string :=
  map (fun p => topic (snd p)) pairs.

(** ** More vocabulary *)

(** The answered questions of tier [d], and how many were answered
    correctly. *)
Definition of_tier (d : Tier) (pairs : list (QuestionResponse * Question))
    : list (QuestionResponse * Question) :=
  filter (fun p => Tier_eqb (difficulty (snd p)) d) pairs.

Definition tier_correct (d : Tier) (pairs : list (QuestionResponse * Question)) : nat :=
  length (filter (fun p => is_correct (fst p)) (of_tier d pairs)).

(** The answered questions on topic [c], whatever their tier. *)
Definition topic_questions (c : string) (pairs : list (QuestionResponse * Question)) : nat :=
  length (filter (fun p => String.eqb (topic (snd p)) c) pairs).

(** The levels in increasing order. *)
Definition level_rank (level : UnderstandingLevel) : nat :=
  match level with
  | beginner => 0
  | improving => 1
  | job_ready => 2
  end.

(** The number of questions a map entry counts, over its three tiers. *)
Definition entry_count (entry : string * ConceptData) : nat :=
  (tc_total (data_easy (snd entry)) + tc_total (data_moderate (snd entry))
   + tc_total (data_hard (snd entry)))%nat.

(** ** Scenarios of the specification *)

Definition scenario_three_responses : list QuestionResponse :=
  [ mkResponse true 90 10; mkResponse false 40 15; mkResponse true 70 20 ].

Definition scenario_three_questions : list Question :=
  [ mkQuestion "arrays" easy; mkQuestion "arrays" easy; mkQuestion "arrays" moderate ].

(** A valid assertion-reason draft, for a generator that answers every
    request with it. *)
Definition assertion_reason_draft : Orchestrator.Question :=
  Orchestrator.mkQuestion "q-1"
    "Assertion (A): A stack is last-in first-out. Reason (R): Push and pop act on the same end."
    Orchestrator.assertion_reason_options "A" "stacks" hard
    Orchestrator.ASSERTION_REASON false.

(** ** The index-guarded loop is a fold over the answered questions *)

Section GuardedLoop.

Context {St : Type} (body : St -> QuestionResponse -> Question -> St).

Let guarded (questions : list Question) (s : St) (r : QuestionResponse) (idx : nat) : St :=
  match nth_error questions idx with
  | None => s
  | Some q => body s r q
  end.

Lemma forEach_from_past_end :
  forall responses questions start s,
    (forall k, nth_error questions (start + k) = None) ->
    forEach_from (guarded questions) start responses s = s.
Proof.
  induction responses as [|r rs IH]; intros questions start s Hnone.
  - reflexivity.
  - cbn [forEach_from]. unfold guarded at 2.
    pose proof (Hnone 0%nat) as H0. rewrite Nat.add_0_r in H0. rewrite H0.
    apply IH. intros k. rewrite Nat.add_succ_comm. apply Hnone.
Qed.

Lemma forEach_from_answered :
  forall responses questions tail start s,
    (forall k, nth_error questions (start + k) = nth_error tail k) ->
    forEach_from (guarded questions) start responses s
    = fold_left (fun s p => body s (fst p) (snd p)) (combine responses tail) s.
Proof.
  induction responses as [|r rs IH]; intros questions tail start s Htail.
  - reflexivity.
  - destruct tail as [|q tail'].
    + cbn [combine fold_left]. apply forEach_from_past_end.
      intros k. rewrite Htail. destruct k; reflexivity.
    + cbn [forEach_from]. unfold guarded at 2.
      pose proof (Htail 0%nat) as H0. rewrite Nat.add_0_r in H0.
      cbn [nth_error] in H0. rewrite H0. cbn [combine fold_left fst snd].
      apply IH. intros k. rewrite Nat.add_succ_comm. apply (Htail (S k)).
Qed.

Lemma forEach_answered :
  forall responses questions s,
    forEach (guarded questions) responses s
    = fold_left (fun s p => body s (fst p) (snd p)) (answered responses questions) s.
Proof.
  intros. unfold forEach, answered.
  apply forEach_from_answered. intros k. reflexivity.
Qed.

End GuardedLoop.

Lemma answered_truncated :
  forall responses questions,
    answered (firstn (length questions) responses) (firstn (length responses) questions)
    = answered responses questions.
Proof.
  unfold answered.
  induction responses as [|r rs IH]; intros [|q qs]; cbn; try reflexivity.
  f_equal. apply IH.
Qed.

(** ** The two grouping loops *)

Lemma bucket_loop :
  forall responses questions scores,
    forEach (bucket_response questions) responses scores
    = fold_left bucket_pair (answered responses questions) scores.
Proof.
  intros. exact (forEach_answered add_to_bucket responses questions scores).
Qed.

Lemma group_loop :
  forall responses questions m,
    forEach (group_response questions) responses m
    = fold_left group_pair (answered responses questions) m.
Proof.
  intros. exact (forEach_answered add_to_concept responses questions m).
Qed.

Lemma Tier_eqb_eq : forall a b, Tier_eqb a b = true <-> a = b.
Proof. intros [] []; cbn; split; congruence. Qed.

Lemma Tier_eqb_refl : forall a, Tier_eqb a a = true.
Proof. intros []; reflexivity. Qed.

Lemma score_of_set_score :
  forall scores d d' s,
    score_of (set_score scores d s) d'
    = if Tier_eqb d d' then s else score_of scores d'.
Proof. intros scores [] [] s; reflexivity. Qed.

Lemma score_of_computeDifficultyScores :
  forall responses questions d,
    score_of (computeDifficultyScores responses questions) d
    = average_score
        (score_of (fold_left bucket_pair (answered responses questions) initial_scores) d).
Proof.
  intros. unfold computeDifficultyScores. rewrite bucket_loop.
  destruct d; reflexivity.
Qed.

(** A tier that no answered question belongs to is not written to. *)
Lemma bucket_fold_untouched :
  forall pairs scores d,
    tier_total d pairs = 0%nat ->
    score_of (fold_left bucket_pair pairs scores) d = score_of scores d.
Proof.
  unfold tier_total.
  induction pairs as [|p pairs IH]; intros scores d Hnone; cbn [fold_left].
  - reflexivity.
  - cbn [filter] in Hnone.
    destruct (Tier_eqb (difficulty (snd p)) d) eqn:E.
    + discriminate Hnone.
    + rewrite IH by exact Hnone.
      unfold bucket_pair, add_to_bucket. rewrite score_of_set_score, E. reflexivity.
Qed.

(** The counter of a tier counts the answered questions of that tier. *)
Lemma bucket_fold_total :
  forall pairs scores d,
    total_questions (score_of (fold_left bucket_pair pairs scores) d)
    = (total_questions (score_of scores d) + tier_total d pairs)%nat.
Proof.
  unfold tier_total.
  induction pairs as [|p pairs IH]; intros scores d; cbn [fold_left filter].
  - cbn. lia.
  - rewrite IH. unfold bucket_pair, add_to_bucket.
    rewrite score_of_set_score.
    destruct (Tier_eqb (difficulty (snd p)) d) eqn:E.
    + apply Tier_eqb_eq in E. subst d. cbn. lia.
    + lia.
Qed.

Lemma total_questions_average_score :
  forall s, total_questions (average_score s) = total_questions s.
Proof. intros s. unfold average_score. destruct (0 <? total_questions s)%nat; reflexivity. Qed.

Lemma total_questions_computeDifficultyScores :
  forall responses questions d,
    total_questions (score_of (computeDifficultyScores responses questions) d)
    = tier_total d (answered responses questions).
Proof.
  intros. rewrite score_of_computeDifficultyScores, total_questions_average_score.
  rewrite bucket_fold_total. destruct d; reflexivity.
Qed.

(** C1, as the code has it.  Neither scoring function fails on arrays of
    different lengths: each returns, and what it returns is its result on
    the two arrays cut to the shorter length.  A response with no question
    at its index is skipped, and a question past the last response is not
    read. *)
Theorem mismatched_input_is_truncated :
  forall responses questions,
    let responses' := firstn (length questions) responses in
    let questions' := firstn (length responses) questions in
    call_computeDifficultyScores responses questions
    = Returns (computeDifficultyScores responses' questions')
    /\ call_computeConceptMastery responses questions
       = Returns (computeConceptMastery responses' questions').
Proof.
  intros responses questions responses' questions'.
  unfold call_computeDifficultyScores, call_computeConceptMastery.
  split; f_equal.
  - unfold computeDifficultyScores. rewrite !bucket_loop.
    unfold responses', questions'. rewrite answered_truncated. reflexivity.
  - unfold computeConceptMastery. rewrite !group_loop.
    unfold responses', questions'. rewrite answered_truncated. reflexivity.
Qed.

(** C1 as stated fails: with two responses and one question the lengths
    differ, yet both calls return; the second response is skipped and the
    easy tier counts one question. *)
Lemma mismatched_input_does_not_fail :
  let responses := [ mkResponse true 90 10; mkResponse false 40 15 ] in
  let questions := [ mkQuestion "arrays" easy ] in
  length responses <> length questions
  /\ call_computeDifficultyScores responses questions
     = Returns (computeDifficultyScores [ mkResponse true 90 10 ] questions)
  /\ total_questions (scores_easy (computeDifficultyScores responses questions)) = 1%nat
  /\ call_computeConceptMastery responses questions
     = Returns (computeConceptMastery [ mkResponse true 90 10 ] questions)
  /\ ~ fails_on_mismatch call_computeDifficultyScores
  /\ ~ fails_on_mismatch call_computeConceptMastery.
Proof.
  cbv zeta. repeat split.
  - cbn. lia.
  - intros H.
    destruct (H [ mkResponse true 90 10; mkResponse false 40 15 ]
                [ mkQuestion "arrays" easy ]) as [e He].
    + cbn. lia.
    + discriminate He.
  - intros H.
    destruct (H [ mkResponse true 90 10; mkResponse false 40 15 ]
                [ mkQuestion "arrays" easy ]) as [e He].
    + cbn. lia.
    + discriminate He.
Qed.

(** C5.  A tier that no answered question belongs to is reported with all
    its fields at their initial zero: no question, none correct, accuracy 0,
    mean confidence 0 and mean time 0. *)
Theorem empty_tier_reports_zero :
  forall responses questions d,
    tier_total d (answered responses questions) = 0%nat ->
    let score := score_of (computeDifficultyScores responses questions) d in
    total_questions score = 0%nat
    /\ correct score = 0%nat
    /\ accuracy score = 0
    /\ avg_confidence score = 0
    /\ avg_time score = 0.
Proof.
  intros responses questions d Hnone score.
  assert (E : score = empty_score d).
  { unfold score. rewrite score_of_computeDifficultyScores.
    rewrite bucket_fold_untouched by exact Hnone.
    destruct d; reflexivity. }
  rewrite E. repeat split.
Qed.

Lemma empty_tier_reports_zero_witness :
  let responses := [ mkResponse true 90 10 ] in
  let questions := [ mkQuestion "arrays" easy ] in
  let score := score_of (computeDifficultyScores responses questions) hard in
  total_questions score = 0%nat
  /\ correct score = 0%nat
  /\ accuracy score = 0
  /\ avg_confidence score = 0
  /\ avg_time score = 0.
Proof.
  apply (empty_tier_reports_zero
           [ mkResponse true 90 10 ] [ mkQuestion "arrays" easy ] hard).
  reflexivity.
Defined.

(** ** Facts about numbers *)

Lemma Rgeb_true : forall x y, Rgeb x y = true <-> x >= y.
Proof. intros x y. unfold Rgeb. destruct (Rge_dec x y); split; intros; try congruence; tauto. Qed.

Lemma Rgtb_true : forall x y, Rgtb x y = true <-> x > y.
Proof. intros x y. unfold Rgtb. destruct (Rgt_dec x y); split; intros; try congruence; tauto. Qed.

Lemma Rltb_true : forall x y, Rltb x y = true <-> x < y.
Proof. intros x y. unfold Rltb. destruct (Rlt_dec x y); split; intros; try congruence; tauto. Qed.

Lemma Rgeb_false : forall x y, Rgeb x y = false <-> x < y.
Proof.
  intros x y. unfold Rgeb.
  destruct (Rge_dec x y); split; intros; try congruence; lra.
Qed.

Lemma Rltb_false : forall x y, Rltb x y = false <-> x >= y.
Proof.
  intros x y. unfold Rltb.
  destruct (Rlt_dec x y); split; intros; try congruence; lra.
Qed.

Lemma Rgtb_false : forall x y, Rgtb x y = false <-> x <= y.
Proof.
  intros x y. unfold Rgtb.
  destruct (Rgt_dec x y); split; intros; try congruence; lra.
Qed.

(** [Math.round x] is the integer [z] with [z <= x + 1/2 < z + 1]. *)
Lemma Math_round_eq :
  forall x z, IZR z <= x + 1 / 2 < IZR z + 1 -> Math_round x = IZR z.
Proof.
  intros x z [Hlo Hhi]. unfold Math_round, Math_floor.
  assert (E : (z + 1)%Z = up (x + 1 / 2)).
  { apply tech_up; rewrite plus_IZR; lra. }
  rewrite <- E. f_equal. lia.
Qed.

(** A running sum, as [reduce] computes it, is the total of the terms. *)
Lemma reduce_sum :
  forall {A : Type} (f : A -> R) (l : list A) (start : R),
    fold_left (fun acc x => acc + f x) l start = start + total (map f l).
Proof.
  intros A f. induction l as [|x l IH]; intros start; cbn.
  - lra.
  - rewrite IH. unfold total. lra.
Qed.

(** ** determineUnderstandingLevel *)

(** C6.  The level is job-ready exactly when the three thresholds 80, 70 and
    60 are met; failing that, improving exactly when easy is at least 70 and
    moderate at least 60; and beginner otherwise.  On the scenario of three
    responses the accuracies are 50, 100 and 0 and the level is beginner. *)
Theorem understanding_level_thresholds :
  (forall scores,
     let e := accuracy (scores_easy scores) in
     let m := accuracy (scores_moderate scores) in
     let h := accuracy (scores_hard scores) in
     let level := determineUnderstandingLevel scores in
     (level = job_ready <-> e >= 80 /\ m >= 70 /\ h >= 60)
     /\ (level = improving <->
         ~ (e >= 80 /\ m >= 70 /\ h >= 60) /\ e >= 70 /\ m >= 60)
     /\ (level = beginner <->
         ~ (e >= 80 /\ m >= 70 /\ h >= 60) /\ ~ (e >= 70 /\ m >= 60)))
  /\ (let scores :=
        computeDifficultyScores scenario_three_responses scenario_three_questions in
      accuracy (scores_easy scores) = 50
      /\ accuracy (scores_moderate scores) = 100
      /\ accuracy (scores_hard scores) = 0
      /\ determineUnderstandingLevel scores = beginner).
Proof.
  split.
  - intros scores e m h level. unfold level, determineUnderstandingLevel.
    fold e m h.
    destruct (Rgeb e 80) eqn:E80; destruct (Rgeb m 70) eqn:M70;
      destruct (Rgeb h 60) eqn:H60; destruct (Rgeb e 70) eqn:E70;
      destruct (Rgeb m 60) eqn:M60; cbn [andb];
      repeat match goal with
             | H : Rgeb _ _ = true |- _ => apply Rgeb_true in H
             | H : Rgeb _ _ = false |- _ => apply Rgeb_false in H
             end;
      repeat split; intros; try discriminate; try tauto; try lra;
      try (intros [? [? ?]]; lra); try (intros [? ?]; lra).
  - cbv zeta.
    assert (He : accuracy (scores_easy
                  (computeDifficultyScores scenario_three_responses
                     scenario_three_questions)) = 50).
    { cbn. lra. }
    assert (Hm : accuracy (scores_moderate
                  (computeDifficultyScores scenario_three_responses
                     scenario_three_questions)) = 100).
    { cbn. lra. }
    assert (Hh : accuracy (scores_hard
                  (computeDifficultyScores scenario_three_responses
                     scenario_three_questions)) = 0).
    { reflexivity. }
    repeat split; try assumption.
    unfold determineUnderstandingLevel. rewrite He, Hm, Hh.
    assert (E1 : Rgeb 50 80 = false) by (apply Rgeb_false; lra).
    assert (E2 : Rgeb 50 70 = false) by (apply Rgeb_false; lra).
    rewrite E1, E2. reflexivity.
Qed.

(** ** computeOverallConfidenceScore *)

(** C10.  With no response the overall confidence score is 0, whatever the
    difficulty scores passed, those computed from any questions included. *)
Theorem confidence_score_of_empty_session :
  (forall difficultyScores, computeOverallConfidenceScore [] difficultyScores = 0)
  /\ (forall questions,
        computeOverallConfidenceScore [] (computeDifficultyScores [] questions) = 0).
Proof. split; intros; reflexivity. Qed.

Lemma length_nonzero :
  forall {A : Type} (l : list A), l <> [] -> (length l =? 0)%nat = false.
Proof. intros A [|x l] H; [congruence | reflexivity]. Qed.

Lemma Rmax_0_left : forall x, 0 <= x -> Rmax 0 x = x.
Proof. intros x H. apply Rmax_right. exact H. Qed.

(** ** generateRecommendations *)

Lemma recommendations_are_candidates :
  forall difficultyScores conceptMastery,
    generateRecommendations difficultyScores conceptMastery
    = firstn 3
        match candidate_messages difficultyScores conceptMastery with
        | [] => [default_message]
        | messages => messages
        end.
Proof.
  intros difficultyScores conceptMastery.
  unfold generateRecommendations, candidate_messages, slice, push, when.
  rewrite firstn_map.
  set (weak := filter (fun c => MasteryStatus_eqb (status c) needs_revision)
                 conceptMastery).
  cbn [skipn Nat.sub].
  destruct (Rltb (accuracy (scores_hard difficultyScores)) 60);
    destruct (Rltb (accuracy (scores_moderate difficultyScores)) 60);
    destruct (Rltb (accuracy (scores_easy difficultyScores)) 70);
    destruct (Rgtb _ _); try destruct (Rgtb _ _);
    destruct weak as [|w1 weak']; reflexivity.
Qed.

(** ** The concept map *)

Lemma Map_get_set :
  forall m k v k',
    Map_get (Map_set m k v) k' = if String.eqb k k' then Some v else Map_get m k'.
Proof.
  induction m as [|[k0 v0] m IH]; intros k v k'; cbn.
  - destruct (String.eqb k k'); reflexivity.
  - destruct (String.eqb k0 k) eqn:E0; cbn.
    + apply String.eqb_eq in E0. subst k0.
      destruct (String.eqb k k'); reflexivity.
    + rewrite IH. destruct (String.eqb k0 k') eqn:E1; [|reflexivity].
      apply String.eqb_eq in E1. subst k0. rewrite String.eqb_sym, E0. reflexivity.
Qed.

Lemma Map_has_keys :
  forall m k, Map_has m k = existsb (String.eqb k) (keys m).
Proof.
  unfold Map_has.
  induction m as [|[k0 v0] m IH]; intros k; cbn.
  - reflexivity.
  - rewrite (String.eqb_sym k k0). destruct (String.eqb k0 k); [reflexivity | apply IH].
Qed.

Lemma keys_Map_set :
  forall m k v,
    keys (Map_set m k v) = if Map_has m k then keys m else keys m ++ [k].
Proof.
  unfold Map_has, keys.
  induction m as [|[k0 v0] m IH]; intros k v; cbn.
  - reflexivity.
  - destruct (String.eqb k0 k) eqn:E; cbn.
    + reflexivity.
    + rewrite IH. destruct (Map_get m k); reflexivity.
Qed.

Lemma Map_get_In :
  forall m k v, NoDup (keys m) -> In (k, v) m -> Map_get m k = Some v.
Proof.
  unfold keys.
  induction m as [|[k0 v0] m IH]; intros k v Hnd Hin; cbn in *.
  - contradiction.
  - inversion Hnd as [|? ? Hnotin Hnd']; subst.
    destruct Hin as [Heq | Hin].
    + inversion Heq; subst. rewrite String.eqb_refl. reflexivity.
    + destruct (String.eqb k0 k) eqn:E.
      * apply String.eqb_eq in E. subst k0. exfalso. apply Hnotin.
        apply (in_map fst) in Hin. exact Hin.
      * apply IH; assumption.
Qed.

(** What one grouped response does to the entry of a topic. *)
Lemma get_or_empty_add_to_concept :
  forall m r q c,
    get_or_empty (add_to_concept m r q) c
    = if String.eqb (topic q) c
      then count_response (get_or_empty m c) (difficulty q) r
      else get_or_empty m c.
Proof.
  intros m r q c. unfold add_to_concept, get_or_empty, Map_has.
  destruct (Map_get m (topic q)) as [data|] eqn:G; cbn [negb].
  - rewrite G, Map_get_set.
    destruct (String.eqb (topic q) c) eqn:E; [|reflexivity].
    apply String.eqb_eq in E. subst c. rewrite G. reflexivity.
  - rewrite Map_get_set, String.eqb_refl, !Map_get_set.
    destruct (String.eqb (topic q) c) eqn:E; [|reflexivity].
    apply String.eqb_eq in E. subst c. rewrite G. reflexivity.
Qed.

(** What one grouped response does to the order of the topics. *)
Lemma keys_add_to_concept :
  forall m r q,
    keys (add_to_concept m r q)
    = if Map_has m (topic q) then keys m else keys m ++ [topic q].
Proof.
  intros m r q. unfold add_to_concept.
  destruct (Map_has m (topic q)) eqn:H; cbn [negb].
  - unfold Map_has in H. destruct (Map_get m (topic q)) eqn:G; [|discriminate].
    rewrite keys_Map_set. unfold Map_has. rewrite G. reflexivity.
  - rewrite Map_get_set, String.eqb_refl, !keys_Map_set, H.
    unfold Map_has at 1. rewrite Map_get_set, String.eqb_refl. reflexivity.
Qed.

Lemma data_of_set_data :
  forall data d d' c,
    data_of (set_data data d c) d' = if Tier_eqb d d' then c else data_of data d'.
Proof. intros data [] [] c; reflexivity. Qed.

Lemma concept_map_of_snoc :
  forall pairs p,
    concept_map_of (pairs ++ [p]) = add_to_concept (concept_map_of pairs) (fst p) (snd p).
Proof. intros. unfold concept_map_of. rewrite fold_left_app. reflexivity. Qed.

Lemma topic_total_snoc :
  forall c d pairs p,
    topic_total c d (pairs ++ [p])
    = (topic_total c d pairs + if on_topic_tier c d p then 1 else 0)%nat.
Proof.
  intros. unfold topic_total. rewrite filter_app, length_app. cbn [filter].
  destruct (on_topic_tier c d p); reflexivity.
Qed.

Lemma topic_correct_snoc :
  forall c d pairs p,
    topic_correct c d (pairs ++ [p])
    = (topic_correct c d pairs
       + if on_topic_tier c d p && is_correct (fst p) then 1 else 0)%nat.
Proof.
  intros. unfold topic_correct. rewrite !filter_app, length_app. cbn [filter].
  destruct (on_topic_tier c d p); cbn [filter andb]; [|reflexivity].
  destruct (is_correct (fst p)); reflexivity.
Qed.

(** The counters of every topic and tier are the counts over the answered
    questions grouped so far. *)
Lemma concept_map_counts :
  forall pairs c d,
    data_of (get_or_empty (concept_map_of pairs) c) d
    = mkTierCount (topic_correct c d pairs) (topic_total c d pairs).
Proof.
  induction pairs as [|p pairs IH] using rev_ind; intros c d.
  - destruct d; reflexivity.
  - rewrite concept_map_of_snoc, get_or_empty_add_to_concept.
    rewrite topic_total_snoc, topic_correct_snoc. unfold on_topic_tier.
    destruct (String.eqb (topic (snd p)) c) eqn:E; cbn [andb].
    + unfold count_response. rewrite data_of_set_data.
      destruct (Tier_eqb (difficulty (snd p)) d) eqn:T; cbn [andb].
      * apply Tier_eqb_eq in T. subst d. rewrite IH. cbn [tc_correct tc_total].
        destruct (is_correct (fst p)); f_equal; lia.
      * rewrite IH. f_equal; lia.
    + rewrite IH. f_equal; lia.
Qed.

Lemma first_occurrences_snoc :
  forall l x,
    first_occurrences (l ++ [x])
    = if existsb (String.eqb x) l
      then first_occurrences l
      else first_occurrences l ++ [x].
Proof.
  induction l as [|y l IH]; intros x; cbn.
  - reflexivity.
  - rewrite IH. destruct (String.eqb x y) eqn:E; cbn [orb].
    + destruct (existsb (String.eqb x) l); [reflexivity|].
      rewrite filter_app. cbn [filter]. rewrite E. cbn [negb].
      rewrite app_nil_r. reflexivity.
    + destruct (existsb (String.eqb x) l); [reflexivity|].
      rewrite filter_app. cbn [filter]. rewrite E. reflexivity.
Qed.

Lemma existsb_first_occurrences :
  forall l x,
    existsb (String.eqb x) (first_occurrences l) = existsb (String.eqb x) l.
Proof.
  induction l as [|y l IH] using rev_ind; intros x.
  - reflexivity.
  - rewrite first_occurrences_snoc.
    destruct (existsb (String.eqb y) l) eqn:Hy.
    + rewrite IH, existsb_app. cbn.
      destruct (String.eqb x y) eqn:E.
      * apply String.eqb_eq in E. subst y. rewrite Hy. reflexivity.
      * rewrite !orb_false_r. reflexivity.
    + rewrite !existsb_app, IH. reflexivity.
Qed.

Lemma NoDup_first_occurrences : forall l, NoDup (first_occurrences l).
Proof.
  induction l as [|y l IH] using rev_ind.
  - constructor.
  - rewrite first_occurrences_snoc.
    destruct (existsb (String.eqb y) l) eqn:Hy; [exact IH|].
    apply NoDup_app; [exact IH | repeat constructor; intros [] |].
    intros a Ha [Hay | []]. subst a.
    rewrite <- existsb_first_occurrences in Hy.
    assert (Hex : existsb (String.eqb y) (first_occurrences l) = true).
    { apply existsb_exists. exists y. split; [exact Ha | apply String.eqb_refl]. }
    congruence.
Qed.

(** The map holds the topics in the order the responses first meet them. *)
Lemma concept_map_keys :
  forall pairs, keys (concept_map_of pairs) = first_occurrences (topics_of pairs).
Proof.
  induction pairs as [|p pairs IH] using rev_ind.
  - reflexivity.
  - rewrite concept_map_of_snoc, keys_add_to_concept.
    unfold topics_of. rewrite map_app. cbn [map].
    rewrite first_occurrences_snoc. fold (topics_of pairs).
    rewrite Map_has_keys, IH, existsb_first_occurrences. reflexivity.
Qed.

Lemma concept_map_NoDup : forall pairs, NoDup (keys (concept_map_of pairs)).
Proof. intros. rewrite concept_map_keys. apply NoDup_first_occurrences. Qed.

(** ** The sort *)

Lemma before_cons_inv :
  forall {A : Type} (a b y : A) (l : list A),
    before a b (y :: l) -> (a = y /\ In b l) \/ before a b l.
Proof.
  intros A a b y l (l1 & l2 & l3 & E).
  destruct l1 as [|z l1]; cbn in E; inversion E; subst.
  - left. split; [reflexivity|]. apply in_or_app. right. left. reflexivity.
  - right. exists l1, l2, l3. reflexivity.
Qed.

Lemma before_cons :
  forall {A : Type} (a b y : A) (l : list A), before a b l -> before a b (y :: l).
Proof.
  intros A a b y l (l1 & l2 & l3 & E). subst l.
  exists (y :: l1), l2, l3. reflexivity.
Qed.

Lemma before_head :
  forall {A : Type} (a b : A) (l : list A), In b l -> before a b (a :: l).
Proof.
  intros A a b l Hin. apply in_split in Hin as (l2 & l3 & E). subst l.
  exists [], l2, l3. reflexivity.
Qed.

Lemma before_map :
  forall {A B : Type} (f : A -> B) (a b : A) (l : list A),
    before a b l -> before (f a) (f b) (map f l).
Proof.
  intros A B f a b l (l1 & l2 & l3 & E). subst l.
  exists (map f l1), (map f l2), (map f l3).
  rewrite map_app. cbn [map]. rewrite map_app. reflexivity.
Qed.

Section SortByKey.

Context {A : Type} (key : A -> R).

(** The comparator [(a, b) => key(b) - key(a)]: descending by [key]. *)
Let descending_by (a b : A) : R := key b - key a.

Let sorted : list A -> Prop := StronglySorted (fun a b => key a >= key b).

Lemma sort_insert_Permutation :
  forall x l, Permutation (sort_insert descending_by x l) (x :: l).
Proof.
  induction l as [|y l IH]; cbn.
  - apply Permutation_refl.
  - destruct (Rgtb (descending_by x y) 0).
    + rewrite IH. apply perm_swap.
    + apply Permutation_refl.
Qed.

Lemma Array_sort_Permutation :
  forall l, Permutation (Array_sort descending_by l) l.
Proof.
  induction l as [|x l IH]; cbn.
  - apply Permutation_refl.
  - rewrite sort_insert_Permutation. apply perm_skip. exact IH.
Qed.

Lemma sort_insert_sorted :
  forall x l, sorted l -> sorted (sort_insert descending_by x l).
Proof.
  unfold sorted.
  induction l as [|y l IH]; intros Hs; cbn.
  - repeat constructor.
  - inversion Hs as [|? ? Hs' Hall]; subst.
    destruct (Rgtb (descending_by x y) 0) eqn:E.
    + apply Rgtb_true in E. unfold descending_by in E.
      constructor; [apply IH; exact Hs'|].
      rewrite sort_insert_Permutation. constructor; [lra | exact Hall].
    + apply Rgtb_false in E. unfold descending_by in E.
      constructor; [exact Hs|].
      constructor; [lra|].
      eapply Forall_impl; [|exact Hall]. cbn. intros z Hz. lra.
Qed.

Lemma Array_sort_sorted : forall l, sorted (Array_sort descending_by l).
Proof.
  induction l as [|x l IH]; cbn.
  - constructor.
  - apply sort_insert_sorted. exact IH.
Qed.

(** Where [x] lands, only elements of a strictly greater key precede it. *)
Lemma before_sort_insert :
  forall x a b l,
    before a b (sort_insert descending_by x l) ->
    before a b l
    \/ (a = x /\ In b l)
    \/ (b = x /\ In a l /\ key a > key x).
Proof.
  induction l as [|y l IH]; cbn; intros Hb.
  - destruct Hb as (l1 & l2 & l3 & E).
    destruct l1 as [|z [|z' l1]]; cbn in E; inversion E.
    destruct l2; discriminate.
  - destruct (Rgtb (descending_by x y) 0) eqn:E.
    + apply Rgtb_true in E. unfold descending_by in E.
      apply before_cons_inv in Hb as [[Ha Hin] | Hb].
      * subst a.
        apply (Permutation_in _ (sort_insert_Permutation x l)) in Hin.
        destruct Hin as [Hx | Hin].
        -- subst b. right. right. repeat split; [left; reflexivity | lra].
        -- left. apply before_head. exact Hin.
      * apply IH in Hb as [Hb | [[Ha Hin] | [Hbx [Hin Hk]]]].
        -- left. apply before_cons. exact Hb.
        -- right. left. split; [exact Ha | right; exact Hin].
        -- right. right. repeat split; [exact Hbx | right; exact Hin | exact Hk].
    + apply before_cons_inv in Hb as [[Ha Hin] | Hb].
      * right. left. split; assumption.
      * left. exact Hb.
Qed.

(** The sort is stable: two elements of equal key keep their order. *)
Lemma Array_sort_stable :
  forall l a b,
    before a b (Array_sort descending_by l) -> key a = key b -> before a b l.
Proof.
  induction l as [|x l IH]; cbn; intros a b Hb Hk.
  - destruct Hb as (l1 & l2 & l3 & E). destruct l1; discriminate.
  - apply before_sort_insert in Hb as [Hb | [[Ha Hin] | [Hbx [Hin Hgt]]]].
    + apply before_cons. apply IH; assumption.
    + subst a. apply before_head.
      apply (Permutation_in _ (Array_sort_Permutation l)). exact Hin.
    + subst b. lra.
Qed.

End SortByKey.

(** ** computeConceptMastery *)

Lemma computeConceptMastery_sorted_entries :
  forall responses questions,
    computeConceptMastery responses questions
    = Array_sort by_overall_score_desc
        (map mastery_entry (concept_map_of (answered responses questions))).
Proof.
  intros. unfold computeConceptMastery. rewrite group_loop. reflexivity.
Qed.

Lemma computeConceptMastery_Permutation :
  forall responses questions,
    Permutation (computeConceptMastery responses questions)
      (map mastery_entry (concept_map_of (answered responses questions))).
Proof.
  intros. rewrite computeConceptMastery_sorted_entries.
  apply (Array_sort_Permutation overall_score).
Qed.

Lemma concept_mastery_entry :
  forall e, concept (mastery_entry e) = fst e.
Proof. intros [c data]. reflexivity. Qed.

(** Every entry of the result is the entry computed for one topic of the map,
    from the counters the map holds for it. *)
Lemma In_computeConceptMastery :
  forall responses questions m,
    In m (computeConceptMastery responses questions) ->
    m = mastery_entry
          (concept m,
           get_or_empty (concept_map_of (answered responses questions)) (concept m)).
Proof.
  intros responses questions m Hin.
  apply (Permutation_in _ (computeConceptMastery_Permutation responses questions)) in Hin.
  apply in_map_iff in Hin as ([c data] & Hm & Hin). subst m.
  rewrite concept_mastery_entry. cbn [fst].
  unfold get_or_empty.
  rewrite (Map_get_In _ c data (concept_map_NoDup _) Hin). reflexivity.
Qed.

Lemma tier_score_counts :
  forall correct total,
    tier_score (mkTierCount correct total)
    = if (total =? 0)%nat then 0 else INR correct / INR total * 100.
Proof. intros correct [|total]; reflexivity. Qed.

(** C3.  For every topic of the result the overall score is
    [easy * 0.3 + moderate * 0.4 + hard * 0.3], where the score of a tier is
    0 when no answered question is on that topic at that tier, and otherwise
    the percentage of its questions answered correctly; the weights stay as
    they are when a tier is absent. *)
Theorem overall_score_is_weighted_sum :
  forall responses questions m,
    In m (computeConceptMastery responses questions) ->
    overall_score m
    = easy_score m * 0.3 + moderate_score m * 0.4 + hard_score m * 0.3
    /\ forall d,
         let asked := topic_total (concept m) d (answered responses questions) in
         let right := topic_correct (concept m) d (answered responses questions) in
         score_at m d = if (asked =? 0)%nat then 0 else INR right / INR asked * 100.
Proof.
  intros responses questions m Hin.
  apply In_computeConceptMastery in Hin.
  set (data := get_or_empty _ _) in Hin.
  split.
  - rewrite Hin. reflexivity.
  - intros d asked right.
    assert (Hd : score_at m d = tier_score (data_of data d)).
    { rewrite Hin. destruct d; reflexivity. }
    rewrite Hd. unfold data. rewrite concept_map_counts.
    apply tier_score_counts.
Qed.

Lemma overall_score_is_weighted_sum_witness :
  let responses := [ mkResponse true 90 10 ] in
  let questions := [ mkQuestion "arrays" easy ] in
  let m := mastery_entry
             ("arrays"%string,
              mkConceptData (mkTierCount 1 1) empty_count empty_count) in
  overall_score m
  = easy_score m * 0.3 + moderate_score m * 0.4 + hard_score m * 0.3
  /\ forall d,
       let asked := topic_total (concept m) d (answered responses questions) in
       let right := topic_correct (concept m) d (answered responses questions) in
       score_at m d = if (asked =? 0)%nat then 0 else INR right / INR asked * 100.
Proof.
  apply (overall_score_is_weighted_sum
           [ mkResponse true 90 10 ] [ mkQuestion "arrays" easy ]).
  left. reflexivity.
Defined.

(** C4.  For every topic of the result the status is mastered exactly when
    the overall score is at least 80, partially understood exactly when it
    is at least 50 and under 80, and needs revision exactly when it is
    under 50. *)
Theorem status_follows_thresholds :
  forall responses questions m,
    In m (computeConceptMastery responses questions) ->
    (status m = mastered <-> overall_score m >= 80)
    /\ (status m = partially_understood <-> 50 <= overall_score m < 80)
    /\ (status m = needs_revision <-> overall_score m < 50).
Proof.
  intros responses questions m Hin.
  apply In_computeConceptMastery in Hin.
  set (data := get_or_empty _ _) in Hin.
  rewrite Hin. cbn [mastery_entry status overall_score].
  set (overall := _ + _ + _).
  destruct (Rgeb overall 80) eqn:E80.
  - apply Rgeb_true in E80.
    repeat split; intros; try discriminate; lra.
  - apply Rgeb_false in E80.
    destruct (Rgeb overall 50) eqn:E50.
    + apply Rgeb_true in E50.
      repeat split; intros; try discriminate; lra.
    + apply Rgeb_false in E50.
      repeat split; intros; try discriminate; lra.
Qed.

Lemma status_follows_thresholds_witness :
  let m := mastery_entry
             ("arrays"%string,
              mkConceptData (mkTierCount 1 1) empty_count empty_count) in
  (status m = mastered <-> overall_score m >= 80)
  /\ (status m = partially_understood <-> 50 <= overall_score m < 80)
  /\ (status m = needs_revision <-> overall_score m < 50).
Proof.
  apply (status_follows_thresholds
           [ mkResponse true 90 10 ] [ mkQuestion "arrays" easy ]).
  left. reflexivity.
Defined.

(** C9.  The result is sorted by overall score, highest first; it has one
    entry per topic met; and of two entries with equal overall scores the
    one standing first is the one whose topic the responses met first. *)
Theorem concept_mastery_sorted_stable :
  forall responses questions,
    let result := computeConceptMastery responses questions in
    StronglySorted (fun a b => overall_score a >= overall_score b) result
    /\ Permutation (map concept result) (encounter_order responses questions)
    /\ NoDup (encounter_order responses questions)
    /\ forall a b,
         before a b result ->
         overall_score a = overall_score b ->
         before (concept a) (concept b) (encounter_order responses questions).
Proof.
  intros responses questions result.
  assert (Hkeys : map concept
                    (map mastery_entry (concept_map_of (answered responses questions)))
                  = encounter_order responses questions).
  { rewrite map_map. unfold encounter_order.
    fold (topics_of (answered responses questions)).
    rewrite <- concept_map_keys. unfold keys.
    apply map_ext. apply concept_mastery_entry. }
  unfold result. rewrite computeConceptMastery_sorted_entries.
  repeat split.
  - apply (Array_sort_sorted overall_score).
  - rewrite <- Hkeys. apply Permutation_map.
    apply (Array_sort_Permutation overall_score).
  - apply NoDup_first_occurrences.
  - intros a b Hb Hk. rewrite <- Hkeys. apply before_map.
    apply (Array_sort_stable overall_score); assumption.
Qed.

(** ** The orchestrator *)

Module OrchestratorFacts.
Import Orchestrator.

Lemma Segment_eqb_eq : forall a b, Segment_eqb a b = true -> a = b.
Proof. intros [] []; cbn; congruence. Qed.

(** A draft without violations has the segment its slot requires. *)
Lemma valid_has_required_segment :
  forall tier i q, validate tier i q = [] -> segment q = required_segment tier i.
Proof.
  intros tier i q Hvalid. unfold validate in Hvalid.
  apply app_eq_nil in Hvalid as [Hseg _]. unfold check in Hseg.
  destruct (Segment_eqb (segment q) (required_segment tier i)) eqn:E.
  - apply Segment_eqb_eq. exact E.
  - discriminate Hseg.
Qed.

(** The auto-fixer reports the violations of the draft it returns. *)
Lemma auto_fix_residual :
  forall tier i q violations,
    snd (auto_fix tier i q violations)
    = validate tier i (fst (auto_fix tier i q violations)).
Proof. reflexivity. Qed.

Lemma fallback_segment : forall tier seg, segment (fallback tier seg) = seg.
Proof. intros tier []; reflexivity. Qed.

(** The fallback of a slot is itself valid for that slot. *)
Lemma fallback_valid :
  forall tier i, validate tier i (fallback tier (required_segment tier i)) = [].
Proof.
  intros tier i. unfold validate, required_reasoning, required_segment.
  destruct tier; try destruct (Nat.even i); vm_compute; reflexivity.
Qed.

(** Whatever the generator answers, a slot is filled with a valid question. *)
Lemma fill_slot_valid :
  forall attempts gen tier i subject calls,
    validate tier i (fst (fill_slot attempts gen tier i subject calls)) = [].
Proof.
  induction attempts as [|remaining IH]; intros gen tier i subject calls;
    cbn [fill_slot].
  - apply fallback_valid.
  - destruct (validate tier i (gen calls tier (required_segment tier i) subject))
      as [|v vs] eqn:Hdraft.
    + exact Hdraft.
    + pose proof (auto_fix_residual tier i
                    (gen calls tier (required_segment tier i) subject) (v :: vs))
        as Hres.
      destruct (auto_fix tier i (gen calls tier (required_segment tier i) subject)
                  (v :: vs)) as [repaired [|r rs]].
      * cbn [fst snd] in *. symmetry. exact Hres.
      * apply IH.
Qed.

Lemma fill_slots_segments :
  forall gen tier subject count first calls,
    map segment (fill_slots gen tier subject first count calls)
    = map (required_segment tier) (seq first count).
Proof.
  induction count as [|rest IH]; intros first calls; cbn [fill_slots seq map].
  - reflexivity.
  - pose proof (fill_slot_valid retry_bound gen tier first subject calls) as Hvalid.
    destruct (fill_slot retry_bound gen tier first subject calls) as [q calls'].
    cbn [map fst] in *. rewrite IH.
    rewrite (valid_has_required_segment tier first q Hvalid). reflexivity.
Qed.

End OrchestratorFacts.

(** C2.  A hard batch of [count] questions has [count] questions, and their
    segments are MCQ_REASONING at the even zero-based slots and
    ASSERTION_REASON at the odd ones, for every draft generator. *)
Theorem hard_batch_alternates :
  forall (gen : Orchestrator.Generator) subject count,
    let batch := Orchestrator.generate_batch gen subject hard count in
    length batch = count
    /\ map Orchestrator.segment batch
       = map (fun i => if Nat.even i
                       then Orchestrator.MCQ_REASONING
                       else Orchestrator.ASSERTION_REASON)
           (seq 0 count).
Proof.
  intros gen subject count batch.
  assert (Hseg : map Orchestrator.segment batch
                 = map (Orchestrator.required_segment hard) (seq 0 count)).
  { apply OrchestratorFacts.fill_slots_segments. }
  split.
  - rewrite <- (length_map Orchestrator.segment), Hseg, length_map, length_seq.
    reflexivity.
  - exact Hseg.
Qed.

(** ** The model on concrete inputs *)

(** Decide every comparison of the goal, dropping the impossible cases. *)
Ltac reflect_comparison E :=
  first [ apply Rgeb_true in E | apply Rgeb_false in E
        | apply Rgtb_true in E | apply Rgtb_false in E
        | apply Rltb_true in E | apply Rltb_false in E ];
  unfold by_overall_score_desc in E; cbn in E.

Ltac decide_comparisons simplify :=
  repeat match goal with
         | |- context [?cmp ?x ?y] =>
             match cmp with Rgeb => idtac | Rgtb => idtac | Rltb => idtac end;
             let E := fresh "E" in
             destruct (cmp x y) eqn:E; reflect_comparison E;
             try (exfalso; lra); simplify
         end.

(** Three topics, the second scoring 30 and the others 0: the second comes
    first and the two zeros keep the order in which they were met. *)
Example concept_mastery_order :
  map concept
    (computeConceptMastery
       [ mkResponse false 50 10; mkResponse true 50 10; mkResponse false 50 10 ]
       [ mkQuestion "loops" easy; mkQuestion "arrays" easy; mkQuestion "trees" easy ])
  = [ "arrays"; "loops"; "trees" ]%string.
Proof.
  rewrite computeConceptMastery_sorted_entries. cbn.
  decide_comparisons ltac:(cbn).
  reflexivity.
Qed.

(** On the three-response scenario the hard and the easy message are given,
    in this order. *)
Example recommendations_of_scenario :
  let scores :=
    computeDifficultyScores scenario_three_responses scenario_three_questions in
  generateRecommendations scores
    (computeConceptMastery scenario_three_responses scenario_three_questions)
  = [ hard_message; easy_message ].
Proof.
  cbv zeta. rewrite recommendations_are_candidates.
  rewrite computeConceptMastery_sorted_entries.
  unfold candidate_messages. cbn -[hard_message moderate_message easy_message
    weak_message overconfident_message underconfident_message default_message].
  decide_comparisons
    ltac:(cbn -[hard_message moderate_message easy_message weak_message
                overconfident_message underconfident_message default_message]).
  all: try reflexivity.
Qed.

(** The draft is refused at the even slot, three times, and the fallback
    takes the slot; at the odd slot it is taken as it is. *)
Example wrong_segment_is_rejected :
  Orchestrator.generate_batch (fun _ _ _ _ => assertion_reason_draft) "stacks" hard 2
  = [ Orchestrator.fallback hard Orchestrator.MCQ_REASONING; assertion_reason_draft ].
Proof. vm_compute. reflexivity. Qed.

(** A draft with unlabelled options, the answer given as a text and the
    wrong flag is repaired and then valid. *)
Example auto_fix_repairs :
  let draft :=
    Orchestrator.mkQuestion "q-2" "What is a queue?"
      [ "A list"; "A first-in first-out structure"; "A tree"; "A graph" ]%string
      "A first-in first-out structure" "queues" easy Orchestrator.MCQ true in
  Orchestrator.validate easy 0 draft
  = [ Orchestrator.bad_option_labels; Orchestrator.bad_correct_answer;
      Orchestrator.bad_reasoning_required ]
  /\ Orchestrator.auto_fix easy 0 draft (Orchestrator.validate easy 0 draft)
     = (Orchestrator.mkQuestion "q-2" "What is a queue?"
          [ "A) A list"; "B) A first-in first-out structure"; "C) A tree";
            "D) A graph" ]%string
          "B" "queues" easy Orchestrator.MCQ false,
        []).
Proof. vm_compute. split; reflexivity. Qed.

(** * Further properties of the scorer *)

(** ** Numbers *)

Lemma Math_round_interval :
  forall x, exists z, Math_round x = IZR z /\ IZR z <= x + 1 / 2 < IZR z + 1.
Proof.
  intros x. exists (up (x + 1 / 2) - 1)%Z. split; [reflexivity|].
  destruct (archimed (x + 1 / 2)) as [Hgt Hle].
  rewrite minus_IZR. lra.
Qed.

Lemma Math_round_interval_integer : forall x, exists z, Math_round x = IZR z.
Proof. intros x. destruct (Math_round_interval x) as (z & E & _). exists z. exact E. Qed.

(** Rounding keeps a number between the integers that bound it. *)
Lemma Math_round_bounds :
  forall x a b, IZR a <= x <= IZR b -> IZR a <= Math_round x <= IZR b.
Proof.
  intros x a b [Ha Hb].
  destruct (Math_round_interval x) as (z & Ez & Hlo & Hhi). rewrite Ez.
  split; apply IZR_le.
  - assert (H : (a < z + 1)%Z) by (apply lt_IZR; rewrite plus_IZR; lra). lia.
  - assert (H : (z < b + 1)%Z) by (apply lt_IZR; rewrite plus_IZR; lra). lia.
Qed.

Lemma percentage_bounds :
  forall c t, (c <= t)%nat -> (0 < t)%nat -> 0 <= INR c / INR t * 100 <= 100.
Proof.
  intros c t Hct Ht.
  apply le_INR in Hct. apply lt_0_INR in Ht.
  pose proof (pos_INR c) as Hc.
  assert (E : INR c / INR t * INR t = INR c) by (field; lra).
  set (q := INR c / INR t) in *.
  assert (0 <= q <= 1) by nra. lra.
Qed.

Lemma total_bounds :
  forall lo hi l,
    Forall (fun x => lo <= x <= hi) l ->
    INR (length l) * lo <= total l <= INR (length l) * hi.
Proof.
  intros lo hi. induction l as [|x l IH]; intros Hall.
  - cbn. lra.
  - inversion Hall as [|? ? Hx Hl]; subst. specialize (IH Hl).
    change (total (x :: l)) with (x + total l).
    rewrite (S_INR (length l)) || (cbn [length]; rewrite S_INR). lra.
Qed.

(** The mean of a non-empty list lies between the bounds of its elements. *)
Lemma mean_bounds :
  forall lo hi l,
    l <> [] -> Forall (fun x => lo <= x <= hi) l -> lo <= mean l <= hi.
Proof.
  intros lo hi l Hne Hall.
  pose proof (total_bounds lo hi l Hall) as Ht.
  assert (Hn : 0 < INR (length l)).
  { apply lt_0_INR. destruct l; [congruence | cbn; lia]. }
  unfold mean.
  assert (E : total l / INR (length l) * INR (length l) = total l) by (field; lra).
  set (q := total l / INR (length l)) in *. nra.
Qed.

(** ** computeDifficultyScores: counts and means *)

(** The running state of a tier: the counts and sums over its questions. *)
Lemma bucket_fold_state :
  forall pairs scores d,
    let old := score_of scores d in
    let new := score_of (fold_left bucket_pair pairs scores) d in
    score_difficulty new = score_difficulty old
    /\ total_questions new = (total_questions old + tier_total d pairs)%nat
    /\ correct new = (correct old + tier_correct d pairs)%nat
    /\ accuracy new = accuracy old
    /\ avg_confidence new
       = avg_confidence old
         + total (map (fun p => user_confidence (fst p)) (of_tier d pairs))
    /\ avg_time new
       = avg_time old + total (map (fun p => total_time (fst p)) (of_tier d pairs)).
Proof.
  unfold tier_total, tier_correct, of_tier.
  induction pairs as [|p pairs IH]; intros scores d; cbn [fold_left filter].
  - cbn. repeat split; try lia; lra.
  - cbv zeta in *. destruct (IH (bucket_pair scores p) d) as (H1 & H2 & H3 & H4 & H5 & H6).
    rewrite H1, H2, H3, H4, H5, H6. clear IH H1 H2 H3 H4 H5 H6.
    unfold bucket_pair, add_to_bucket. rewrite score_of_set_score.
    destruct (Tier_eqb (difficulty (snd p)) d) eqn:E.
    + apply Tier_eqb_eq in E. subst d. cbn [filter map length total fold_right
        score_difficulty total_questions correct accuracy avg_confidence avg_time].
      destruct (is_correct (fst p)); cbn [length];
        repeat split; try lia; unfold total; lra.
    + repeat split; try lia; lra.
Qed.

(** What [computeDifficultyScores] reports for a tier, in terms of the
    answered questions of that tier. *)
Lemma tier_report :
  forall responses questions d,
    let pairs := answered responses questions in
    let score := score_of (computeDifficultyScores responses questions) d in
    score_difficulty score = d
    /\ total_questions score = tier_total d pairs
    /\ correct score = tier_correct d pairs
    /\ accuracy score
       = (if (0 <? tier_total d pairs)%nat
          then INR (tier_correct d pairs) / INR (tier_total d pairs) * 100
          else 0)
    /\ avg_confidence score
       = (if (0 <? tier_total d pairs)%nat
          then mean (map (fun p => user_confidence (fst p)) (of_tier d pairs))
          else 0)
    /\ avg_time score
       = (if (0 <? tier_total d pairs)%nat
          then mean (map (fun p => total_time (fst p)) (of_tier d pairs))
          else 0).
Proof.
  intros responses questions d pairs score. unfold score.
  rewrite score_of_computeDifficultyScores. fold pairs.
  destruct (bucket_fold_state pairs initial_scores d) as (H1 & H2 & H3 & H4 & H5 & H6).
  assert (I1 : score_difficulty (score_of initial_scores d) = d) by (destruct d; reflexivity).
  assert (I2 : total_questions (score_of initial_scores d) = 0%nat) by (destruct d; reflexivity).
  assert (I3 : correct (score_of initial_scores d) = 0%nat) by (destruct d; reflexivity).
  assert (I4 : accuracy (score_of initial_scores d) = 0) by (destruct d; reflexivity).
  assert (I5 : avg_confidence (score_of initial_scores d) = 0) by (destruct d; reflexivity).
  assert (I6 : avg_time (score_of initial_scores d) = 0) by (destruct d; reflexivity).
  rewrite I1 in H1. rewrite I2 in H2. rewrite I3 in H3. rewrite I4 in H4.
  rewrite I5, Rplus_0_l in H5. rewrite I6, Rplus_0_l in H6. cbn [Nat.add] in H2, H3.
  assert (L : forall f : QuestionResponse * Question -> R,
             length (map f (of_tier d pairs)) = tier_total d pairs).
  { intros f. rewrite length_map. reflexivity. }
  unfold average_score. rewrite H2.
  destruct (0 <? tier_total d pairs)%nat eqn:E;
    cbn [score_difficulty total_questions correct accuracy avg_confidence avg_time].
  - rewrite ?H1, ?H2, ?H3, ?H5, ?H6. unfold mean. rewrite !L. repeat split.
  - rewrite ?H1, ?H2, ?H3, ?H4. apply Nat.ltb_ge in E.
    assert (Z : tier_total d pairs = 0%nat) by lia.
    assert (N : of_tier d pairs = []).
    { apply length_zero_iff_nil. exact Z. }
    rewrite H5, H6, N. repeat split.
Qed.

Lemma tier_correct_le_total :
  forall d pairs, (tier_correct d pairs <= tier_total d pairs)%nat.
Proof. intros. unfold tier_correct, tier_total, of_tier. apply filter_length_le. Qed.

Lemma tier_totals_sum :
  forall pairs,
    (tier_total easy pairs + tier_total moderate pairs + tier_total hard pairs)%nat
    = length pairs.
Proof.
  unfold tier_total. induction pairs as [|p pairs IH]; [reflexivity|].
  cbn [filter length]. destruct (difficulty (snd p)); cbn [Tier_eqb length]; lia.
Qed.

Lemma tier_corrects_sum :
  forall pairs,
    (tier_correct easy pairs + tier_correct moderate pairs + tier_correct hard pairs)%nat
    = length (filter (fun p => is_correct (fst p)) pairs).
Proof.
  unfold tier_correct, of_tier. induction pairs as [|p pairs IH]; [reflexivity|].
  cbn [filter length].
  destruct (difficulty (snd p)); cbn [Tier_eqb filter];
    destruct (is_correct (fst p)); cbn [length]; lia.
Qed.

(** X1.  The three tiers partition the answered questions: their question
    counts add up to the length of the shorter array, and their correct
    counts to the number of answered questions answered correctly. *)
Theorem tier_counts_partition :
  forall responses questions,
    let scores := computeDifficultyScores responses questions in
    (total_questions (scores_easy scores) + total_questions (scores_moderate scores)
     + total_questions (scores_hard scores))%nat
    = Nat.min (length responses) (length questions)
    /\ (correct (scores_easy scores) + correct (scores_moderate scores)
        + correct (scores_hard scores))%nat
       = length (filter (fun p => is_correct (fst p)) (answered responses questions)).
Proof.
  intros responses questions scores.
  destruct (tier_report responses questions easy) as (_ & Te & Ce & _).
  destruct (tier_report responses questions moderate) as (_ & Tm & Cm & _).
  destruct (tier_report responses questions hard) as (_ & Th & Ch & _).
  cbn [score_of] in *. unfold scores. rewrite Te, Tm, Th, Ce, Cm, Ch.
  rewrite <- (length_combine responses questions). fold (answered responses questions).
  split; [apply tier_totals_sum | apply tier_corrects_sum].
Qed.

(** X2.  Every tier reports its own label, never more correct answers than
    questions, and an accuracy between 0 and 100. *)
Theorem tier_accuracy_bounded :
  forall responses questions d,
    let score := score_of (computeDifficultyScores responses questions) d in
    score_difficulty score = d
    /\ (correct score <= total_questions score)%nat
    /\ 0 <= accuracy score <= 100.
Proof.
  intros responses questions d score.
  destruct (tier_report responses questions d) as (Hd & Ht & Hc & Ha & _).
  fold score in Hd, Ht, Hc, Ha.
  pose proof (tier_correct_le_total d (answered responses questions)) as Hle.
  split; [exact Hd|]. split; [lia|].
  rewrite Ha. destruct (0 <? _)%nat eqn:E.
  - apply Nat.ltb_lt in E. apply percentage_bounds; assumption.
  - lra.
Qed.

(** X3.  A tier with at least one answered question reports the percentage
    of its questions answered correctly, and the means of the confidences
    and of the times of its responses. *)
Theorem nonempty_tier_reports_means :
  forall responses questions d,
    let pairs := answered responses questions in
    (0 < tier_total d pairs)%nat ->
    let score := score_of (computeDifficultyScores responses questions) d in
    accuracy score = INR (tier_correct d pairs) / INR (tier_total d pairs) * 100
    /\ avg_confidence score = mean (map (fun p => user_confidence (fst p)) (of_tier d pairs))
    /\ avg_time score = mean (map (fun p => total_time (fst p)) (of_tier d pairs)).
Proof.
  intros responses questions d pairs Hpos score.
  destruct (tier_report responses questions d) as (_ & _ & _ & Ha & Hc & Ht).
  fold pairs score in Ha, Hc, Ht.
  apply Nat.ltb_lt in Hpos. rewrite Hpos in Ha, Hc, Ht. auto.
Qed.

Lemma nonempty_tier_reports_means_witness :
  let responses := [ mkResponse true 90 10; mkResponse false 40 15 ] in
  let questions := [ mkQuestion "arrays" easy; mkQuestion "loops" easy ] in
  let pairs := answered responses questions in
  let score := score_of (computeDifficultyScores responses questions) easy in
  accuracy score = INR (tier_correct easy pairs) / INR (tier_total easy pairs) * 100
  /\ avg_confidence score
     = mean (map (fun p => user_confidence (fst p)) (of_tier easy pairs))
  /\ avg_time score = mean (map (fun p => total_time (fst p)) (of_tier easy pairs)).
Proof.
  apply (nonempty_tier_reports_means
           [ mkResponse true 90 10; mkResponse false 40 15 ]
           [ mkQuestion "arrays" easy; mkQuestion "loops" easy ] easy).
  cbn. lia.
Defined.

Lemma mean_nonneg :
  forall l, Forall (fun x => 0 <= x) l -> 0 <= mean l.
Proof.
  intros l Hall. unfold mean.
  assert (Ht : 0 <= total l).
  { unfold total. induction Hall as [|x l Hx Hl IH]; cbn; lra. }
  destruct l as [|x l]; [cbn; lra|].
  assert (Hn : 0 < INR (length (x :: l))) by (apply lt_0_INR; cbn; lia).
  apply Rmult_le_pos; [exact Ht|]. apply Rlt_le, Rinv_0_lt_compat. exact Hn.
Qed.

(** A property of all responses holds of the responses of a tier. *)
Lemma Forall_of_tier :
  forall (P : QuestionResponse -> Prop) (f : QuestionResponse -> R) (Q : R -> Prop)
         responses questions d,
    (forall r, P r -> Q (f r)) ->
    Forall P responses ->
    Forall Q (map (fun p => f (fst p)) (of_tier d (answered responses questions))).
Proof.
  intros P f Q responses questions d HPQ Hall.
  apply Forall_forall. intros x Hx.
  apply in_map_iff in Hx as (p & Hp & Hin). subst x.
  unfold of_tier in Hin. apply filter_In in Hin as [Hin _].
  destruct p as [r q]. apply in_combine_l in Hin.
  apply HPQ. rewrite Forall_forall in Hall. apply Hall. exact Hin.
Qed.

(** X4.  When every confidence lies between 0 and 100 and no time is
    negative, so do the means every tier reports: the mean confidence is
    between 0 and 100 and the mean time is not negative. *)
Theorem tier_means_within_input_range :
  forall responses questions d,
    Forall (fun r => 0 <= user_confidence r <= 100) responses ->
    Forall (fun r => 0 <= total_time r) responses ->
    let score := score_of (computeDifficultyScores responses questions) d in
    0 <= avg_confidence score <= 100 /\ 0 <= avg_time score.
Proof.
  intros responses questions d Hconf Htime score.
  destruct (tier_report responses questions d) as (_ & _ & _ & _ & Hc & Ht).
  fold score in Hc, Ht. rewrite Hc, Ht.
  destruct (0 <? tier_total d (answered responses questions))%nat eqn:E; [|lra].
  apply Nat.ltb_lt in E. split.
  - apply mean_bounds.
    + intros N. apply (f_equal (@length R)) in N. rewrite length_map in N.
      unfold tier_total in E. unfold of_tier in N. cbn [length] in N. lia.
    + apply (Forall_of_tier (fun r => 0 <= user_confidence r <= 100)); auto.
  - apply mean_nonneg.
    apply (Forall_of_tier (fun r => 0 <= total_time r)); auto.
Qed.

Lemma tier_means_within_input_range_witness :
  let responses := [ mkResponse true 90 10; mkResponse false 40 15 ] in
  let questions := [ mkQuestion "arrays" easy; mkQuestion "loops" hard ] in
  let score := score_of (computeDifficultyScores responses questions) easy in
  0 <= avg_confidence score <= 100 /\ 0 <= avg_time score.
Proof.
  apply (tier_means_within_input_range
           [ mkResponse true 90 10; mkResponse false 40 15 ]
           [ mkQuestion "arrays" easy; mkQuestion "loops" hard ] easy).
  - repeat constructor; cbn; lra.
  - repeat constructor; cbn; lra.
Defined.

Lemma Permutation_filter_length :
  forall {A : Type} (f : A -> bool) (l l' : list A),
    Permutation l l' -> length (filter f l) = length (filter f l').
Proof.
  intros A f l l' H. induction H; cbn.
  - reflexivity.
  - destruct (f x); cbn; congruence.
  - destruct (f x), (f y); reflexivity.
  - congruence.
Qed.

(** X5.  The counts and the accuracy of a tier do not depend on the order
    of the session: two sessions whose answered questions are the same up to
    order report the same question count, correct count and accuracy. *)
Theorem tier_counts_ignore_order :
  forall responses questions responses' questions' d,
    Permutation (answered responses questions) (answered responses' questions') ->
    let score := score_of (computeDifficultyScores responses questions) d in
    let score' := score_of (computeDifficultyScores responses' questions') d in
    total_questions score = total_questions score'
    /\ correct score = correct score'
    /\ accuracy score = accuracy score'.
Proof.
  intros responses questions responses' questions' d Hperm score score'.
  destruct (tier_report responses questions d) as (_ & Ht & Hc & Ha & _).
  destruct (tier_report responses' questions' d) as (_ & Ht' & Hc' & Ha' & _).
  fold score in Ht, Hc, Ha. fold score' in Ht', Hc', Ha'.
  assert (Et : tier_total d (answered responses questions)
               = tier_total d (answered responses' questions')).
  { unfold tier_total. apply Permutation_filter_length. exact Hperm. }
  assert (Ec : tier_correct d (answered responses questions)
               = tier_correct d (answered responses' questions')).
  { unfold tier_correct, of_tier.
    apply Permutation_filter_length.
    clear - Hperm. induction Hperm; cbn.
    - constructor.
    - destruct (Tier_eqb _ _); [constructor|]; assumption.
    - destruct (Tier_eqb _ _), (Tier_eqb _ _); try apply perm_swap; apply Permutation_refl.
    - eapply Permutation_trans; eassumption. }
  rewrite Ha, Ha', Ht, Ht', Hc, Hc', Et, Ec. repeat split.
Qed.

Lemma tier_counts_ignore_order_witness :
  let a := mkResponse true 90 10 in
  let b := mkResponse false 40 15 in
  let p := mkQuestion "arrays" easy in
  let q := mkQuestion "loops" hard in
  let score := score_of (computeDifficultyScores [a; b] [p; q]) easy in
  let score' := score_of (computeDifficultyScores [b; a] [q; p]) easy in
  total_questions score = total_questions score'
  /\ correct score = correct score'
  /\ accuracy score = accuracy score'.
Proof.
  apply (tier_counts_ignore_order
           [ mkResponse true 90 10; mkResponse false 40 15 ]
           [ mkQuestion "arrays" easy; mkQuestion "loops" hard ]
           [ mkResponse false 40 15; mkResponse true 90 10 ]
           [ mkQuestion "loops" hard; mkQuestion "arrays" easy ] easy).
  apply perm_swap.
Defined.

(** ** computeConceptMastery: counts, bounds and statuses *)

Lemma In_first_occurrences :
  forall l x, In x (first_occurrences l) <-> In x l.
Proof.
  intros l x.
  assert (E : forall l', In x l' <-> existsb (String.eqb x) l' = true).
  { intros l'. rewrite existsb_exists. split.
    - intros H. exists x. split; [exact H | apply String.eqb_refl].
    - intros (y & Hy & Exy). apply String.eqb_eq in Exy. subst y. exact Hy. }
  rewrite !E, existsb_first_occurrences. reflexivity.
Qed.

(** The topic of an entry of the result is the topic of an answered question. *)
Lemma concept_of_result_is_answered :
  forall responses questions m,
    In m (computeConceptMastery responses questions) ->
    In (concept m) (topics_of (answered responses questions)).
Proof.
  intros responses questions m Hin.
  apply (Permutation_in _ (computeConceptMastery_Permutation responses questions)) in Hin.
  apply in_map_iff in Hin as (e & Hm & Hin). subst m.
  rewrite concept_mastery_entry.
  apply In_first_occurrences. rewrite <- concept_map_keys.
  unfold keys. apply in_map. exact Hin.
Qed.

Lemma topic_totals_sum :
  forall c pairs,
    (topic_total c easy pairs + topic_total c moderate pairs
     + topic_total c hard pairs)%nat
    = topic_questions c pairs.
Proof.
  unfold topic_total, topic_questions, on_topic_tier.
  induction pairs as [|p pairs IH]; [reflexivity|].
  cbn [filter length].
  destruct (String.eqb (topic (snd p)) c); cbn [andb]; [|exact IH].
  destruct (difficulty (snd p)); cbn [Tier_eqb length]; lia.
Qed.

Lemma topic_questions_positive :
  forall c pairs, In c (topics_of pairs) -> (1 <= topic_questions c pairs)%nat.
Proof.
  unfold topics_of, topic_questions.
  induction pairs as [|p pairs IH]; cbn [map In filter]; intros Hin.
  - contradiction.
  - destruct (String.eqb (topic (snd p)) c) eqn:E.
    + cbn [length]. lia.
    + destruct Hin as [Hp | Hin]; [|apply IH; exact Hin].
      subst c. rewrite String.eqb_refl in E. discriminate.
Qed.

Lemma topic_correct_le_total :
  forall c d pairs, (topic_correct c d pairs <= topic_total c d pairs)%nat.
Proof. intros. unfold topic_correct, topic_total. apply filter_length_le. Qed.

(** The counters behind an entry of the result. *)
Lemma entry_of_result :
  forall responses questions m,
    In m (computeConceptMastery responses questions) ->
    let pairs := answered responses questions in
    let counts d := mkTierCount (topic_correct (concept m) d pairs)
                      (topic_total (concept m) d pairs) in
    m = mastery_entry
          (concept m, mkConceptData (counts easy) (counts moderate) (counts hard)).
Proof.
  intros responses questions m Hin pairs counts.
  apply In_computeConceptMastery in Hin. fold pairs in Hin.
  set (data := get_or_empty (concept_map_of pairs) (concept m)) in *.
  assert (Hd : data = mkConceptData (counts easy) (counts moderate) (counts hard)).
  { pose proof (concept_map_counts pairs (concept m) easy) as He.
    pose proof (concept_map_counts pairs (concept m) moderate) as Hm.
    pose proof (concept_map_counts pairs (concept m) hard) as Hh.
    fold data in He, Hm, Hh. cbn [data_of] in He, Hm, Hh.
    destruct data as [de dm dh]. cbn in He, Hm, Hh. subst. reflexivity. }
  rewrite <- Hd. exact Hin.
Qed.

Lemma tier_score_bounds :
  forall c t, (c <= t)%nat -> 0 <= tier_score (mkTierCount c t) <= 100.
Proof.
  intros c t Hct. rewrite tier_score_counts.
  destruct (t =? 0)%nat eqn:E; [lra|].
  apply Nat.eqb_neq in E. apply percentage_bounds; lia.
Qed.

(** X7.  Every entry of the result has its three tier scores and its
    overall score between 0 and 100. *)
Theorem concept_scores_bounded :
  forall responses questions m,
    In m (computeConceptMastery responses questions) ->
    (forall d, 0 <= score_at m d <= 100) /\ 0 <= overall_score m <= 100.
Proof.
  intros responses questions m Hin.
  pose proof (entry_of_result responses questions m Hin) as Hm. cbv zeta in Hm.
  set (pairs := answered responses questions) in *.
  pose proof (tier_score_bounds _ _ (topic_correct_le_total (concept m) easy pairs)) as He.
  pose proof (tier_score_bounds _ _ (topic_correct_le_total (concept m) moderate pairs)) as Hmo.
  pose proof (tier_score_bounds _ _ (topic_correct_le_total (concept m) hard pairs)) as Hh.
  rewrite Hm. cbn [mastery_entry score_at overall_score easy_score moderate_score
                     hard_score data_easy data_moderate data_hard].
  split; [intros []; cbn [score_at easy_score moderate_score hard_score]; assumption | lra].
Qed.

Lemma concept_scores_bounded_witness :
  let m := mastery_entry
             ("arrays"%string,
              mkConceptData (mkTierCount 1 1) empty_count empty_count) in
  (forall d, 0 <= score_at m d <= 100) /\ 0 <= overall_score m <= 100.
Proof.
  apply (concept_scores_bounded
           [ mkResponse true 90 10 ] [ mkQuestion "arrays" easy ]).
  left. reflexivity.
Defined.

Lemma question_count_mastery_entry :
  forall e, question_count (mastery_entry e) = entry_count e.
Proof. intros [c data]. reflexivity. Qed.

Lemma entry_count_Map_set :
  forall m k v,
    (list_sum (map entry_count (Map_set m k v))
     + match Map_get m k with
       | Some old => entry_count (k, old)
       | None => 0
       end)%nat
    = (list_sum (map entry_count m) + entry_count (k, v))%nat.
Proof.
  induction m as [|[k0 v0] m IH]; intros k v; cbn [Map_set Map_get map list_sum fold_right].
  - unfold entry_count. cbn. lia.
  - destruct (String.eqb k0 k) eqn:E; cbn [map list_sum fold_right].
    + unfold entry_count. cbn [snd]. lia.
    + specialize (IH k v). fold (list_sum (map entry_count (Map_set m k v))).
      fold (list_sum (map entry_count m)). lia.
Qed.

Lemma entry_count_count_response :
  forall k data d r,
    entry_count (k, count_response data d r) = S (entry_count (k, data)).
Proof. intros k data [] r; unfold entry_count, count_response; cbn; lia. Qed.

(** Grouping one more response counts one more question. *)
Lemma entry_count_add_to_concept :
  forall m r q,
    list_sum (map entry_count (add_to_concept m r q))
    = S (list_sum (map entry_count m)).
Proof.
  intros m r q. unfold add_to_concept, Map_has.
  destruct (Map_get m (topic q)) as [data|] eqn:G; cbn [negb].
  - rewrite G.
    pose proof (entry_count_Map_set m (topic q)
                  (count_response data (difficulty q) r)) as H.
    rewrite G, entry_count_count_response in H. lia.
  - rewrite Map_get_set, String.eqb_refl.
    pose proof (entry_count_Map_set m (topic q) empty_data) as H1.
    rewrite G in H1.
    pose proof (entry_count_Map_set (Map_set m (topic q) empty_data) (topic q)
                  (count_response empty_data (difficulty q) r)) as H2.
    rewrite Map_get_set, String.eqb_refl, entry_count_count_response in H2.
    change (entry_count (topic q, empty_data)) with 0%nat in H1, H2. lia.
Qed.

Lemma concept_map_question_total :
  forall pairs, list_sum (map entry_count (concept_map_of pairs)) = length pairs.
Proof.
  induction pairs as [|p pairs IH] using rev_ind.
  - reflexivity.
  - rewrite concept_map_of_snoc, entry_count_add_to_concept, IH, length_app.
    cbn. lia.
Qed.

(** X6.  The question count of an entry is the number of answered questions
    on its topic and is at least 1, and the counts of all entries add up to
    the number of answered questions, the length of the shorter array. *)
Theorem question_counts_partition :
  forall responses questions,
    let result := computeConceptMastery responses questions in
    (forall m, In m result ->
       question_count m = topic_questions (concept m) (answered responses questions)
       /\ (1 <= question_count m)%nat)
    /\ list_sum (map question_count result)
       = Nat.min (length responses) (length questions).
Proof.
  intros responses questions result. split.
  - intros m Hin.
    assert (E : question_count m
                = topic_questions (concept m) (answered responses questions)).
    { rewrite (entry_of_result responses questions m Hin) at 1.
      cbn [mastery_entry question_count data_easy data_moderate data_hard tc_total].
      apply topic_totals_sum. }
    split; [exact E|]. rewrite E.
    apply topic_questions_positive.
    apply concept_of_result_is_answered. exact Hin.
  - unfold result.
    rewrite (Permutation_map question_count
               (computeConceptMastery_Permutation responses questions)).
    rewrite map_map.
    rewrite (map_ext _ entry_count question_count_mastery_entry).
    rewrite concept_map_question_total. apply length_combine.
Qed.

(** X8.  A topic is mastered only if it was asked at all three tiers, and a
    topic asked at a single tier needs revision whatever the answers: an
    absent tier weighs as a score of 0. *)
Theorem mastery_needs_every_tier :
  forall responses questions m,
    In m (computeConceptMastery responses questions) ->
    let asked d := topic_total (concept m) d (answered responses questions) in
    (status m = mastered -> forall d, (0 < asked d)%nat)
    /\ (forall d, (forall d', d' <> d -> asked d' = 0%nat) -> status m = needs_revision).
Proof.
  intros responses questions m Hin asked.
  pose proof (entry_of_result responses questions m Hin) as Hm. cbv zeta in Hm.
  set (pairs := answered responses questions) in *.
  pose proof (tier_score_bounds _ _ (topic_correct_le_total (concept m) easy pairs)) as He.
  pose proof (tier_score_bounds _ _ (topic_correct_le_total (concept m) moderate pairs)) as Hmo.
  pose proof (tier_score_bounds _ _ (topic_correct_le_total (concept m) hard pairs)) as Hh.
  assert (Zero : forall d, asked d = 0%nat ->
            tier_score (mkTierCount (topic_correct (concept m) d pairs)
                          (topic_total (concept m) d pairs)) = 0).
  { intros d Hd. unfold asked in Hd. rewrite tier_score_counts, Hd. reflexivity. }
  rewrite Hm. cbn [mastery_entry status data_easy data_moderate data_hard].
  set (overall := _ + _ + _).
  split.
  - intros Hst d.
    destruct (Rgeb overall 80) eqn:E80;
      [|destruct (Rgeb overall 50); discriminate Hst].
    apply Rgeb_true in E80.
    destruct (asked d) eqn:Hd; [|lia].
    exfalso. pose proof (Zero d Hd) as Z. unfold overall in E80.
    destruct d; rewrite Z in E80; lra.
  - intros d Hothers.
    assert (E80 : Rgeb overall 80 = false).
    { apply Rgeb_false. unfold overall.
      destruct d;
        [ rewrite (Zero moderate), (Zero hard)
        | rewrite (Zero easy), (Zero hard)
        | rewrite (Zero easy), (Zero moderate) ];
        try (apply Hothers; discriminate); lra. }
    assert (E50 : Rgeb overall 50 = false).
    { apply Rgeb_false. unfold overall.
      destruct d;
        [ rewrite (Zero moderate), (Zero hard)
        | rewrite (Zero easy), (Zero hard)
        | rewrite (Zero easy), (Zero moderate) ];
        try (apply Hothers; discriminate); lra. }
    rewrite E80, E50. reflexivity.
Qed.

Lemma mastery_needs_every_tier_witness :
  let responses := [ mkResponse true 90 10 ] in
  let questions := [ mkQuestion "arrays" easy ] in
  let m := mastery_entry
             ("arrays"%string,
              mkConceptData (mkTierCount 1 1) empty_count empty_count) in
  let asked d := topic_total (concept m) d (answered responses questions) in
  (status m = mastered -> forall d, (0 < asked d)%nat)
  /\ (forall d, (forall d', d' <> d -> asked d' = 0%nat) -> status m = needs_revision).
Proof.
  apply (mastery_needs_every_tier
           [ mkResponse true 90 10 ] [ mkQuestion "arrays" easy ]).
  left. reflexivity.
Defined.

(** X9.  The result is empty exactly when no response has a question, that
    is when one of the two arrays is empty. *)
Theorem concept_mastery_empty_iff :
  forall responses questions,
    computeConceptMastery responses questions = []
    <-> responses = [] \/ questions = [].
Proof.
  intros responses questions. split.
  - intros Hnil.
    destruct responses as [|r rs]; [left; reflexivity|].
    destruct questions as [|q qs]; [right; reflexivity|].
    exfalso.
    pose proof (computeConceptMastery_Permutation (r :: rs) (q :: qs)) as P.
    rewrite Hnil in P. apply Permutation_nil in P.
    apply (f_equal (map concept)) in P. rewrite map_map in P.
    rewrite (map_ext _ fst concept_mastery_entry) in P.
    fold (keys (concept_map_of (answered (r :: rs) (q :: qs)))) in P.
    rewrite concept_map_keys in P. discriminate P.
  - intros [H | H]; subst.
    + reflexivity.
    + rewrite computeConceptMastery_sorted_entries.
      unfold answered. rewrite combine_nil. reflexivity.
Qed.

(** ** computeOverallConfidenceScore: range *)

Lemma Rmax_0_bounds :
  forall y hi, 0 <= hi -> y <= hi -> 0 <= Rmax 0 y <= hi.
Proof. intros y hi Hhi Hy. unfold Rmax. destruct (Rle_dec 0 y); lra. Qed.

Lemma total_nonneg :
  forall l, Forall (fun x => 0 <= x) l -> 0 <= total l.
Proof. unfold total. intros l H. induction H; cbn; lra. Qed.

Lemma quotient_nonneg :
  forall x n, 0 <= x -> (0 < n)%nat -> 0 <= x / INR n.
Proof.
  intros x n Hx Hn. apply lt_0_INR in Hn.
  apply Rmult_le_pos; [exact Hx|]. apply Rlt_le, Rinv_0_lt_compat. exact Hn.
Qed.

Lemma length_positive :
  forall {A : Type} (l : list A), l <> [] -> (0 < length l)%nat.
Proof. intros A [|x l] H; [congruence | cbn; lia]. Qed.

Lemma times_nonneg :
  forall responses,
    Forall (fun r => 0 <= total_time r) responses ->
    Forall (fun x => 0 <= x) (map total_time responses).
Proof. intros responses H. induction H; cbn; constructor; assumption. Qed.

(** The speed term is between 0 and 100 when no time is negative. *)
Lemma speed_bounds :
  forall responses,
    responses <> [] ->
    Forall (fun r => 0 <= total_time r) responses ->
    0 <= Rmax 0
           (100 - fold_left (fun sum r => sum + total_time r) responses 0
                  / INR (length responses) / 120 * 100) <= 100.
Proof.
  intros responses Hne Htime.
  rewrite (reduce_sum total_time responses 0), Rplus_0_l.
  pose proof (quotient_nonneg _ _ (total_nonneg _ (times_nonneg _ Htime))
                (length_positive responses Hne)) as Havg.
  apply Rmax_0_bounds; lra.
Qed.

(** X10.  When no time is negative the overall confidence score is an
    integer between 0 and 100. *)
Theorem confidence_score_is_percentage :
  forall responses difficultyScores,
    Forall (fun r => 0 <= total_time r) responses ->
    let score := computeOverallConfidenceScore responses difficultyScores in
    0 <= score <= 100 /\ exists z, score = IZR z.
Proof.
  intros responses difficultyScores Htime score. unfold score.
  destruct responses as [|r rs].
  - cbn. split; [lra | exists 0%Z; reflexivity].
  - set (responses := r :: rs) in *.
    assert (Hne : responses <> []) by discriminate.
    unfold computeOverallConfidenceScore. rewrite (length_nonzero responses Hne).
    cbv zeta. split; [|apply Math_round_interval_integer].
    apply (Math_round_bounds _ 0 100).
    pose proof (percentage_bounds _ _ (filter_length_le is_correct responses)
                  (length_positive responses Hne)) as Hacc.
    pose proof (speed_bounds responses Hne Htime) as Hspeed.
    match goal with
    | |- context [Rmax 0 (100 - sqrt ?v * 100)] =>
        pose proof (sqrt_pos v) as Hsqrt;
        pose proof (Rmax_0_bounds (100 - sqrt v * 100) 100) as Hcons
    end.
    lra.
Qed.

Lemma confidence_score_is_percentage_witness :
  let score := computeOverallConfidenceScore [ mkResponse true 80 30 ] initial_scores in
  0 <= score <= 100 /\ exists z, score = IZR z.
Proof.
  apply (confidence_score_is_percentage [ mkResponse true 80 30 ] initial_scores).
  repeat constructor. cbn. lra.
Defined.

Lemma total_constant :
  forall {A : Type} (v : R) (l : list A),
    total (map (fun _ => v) l) = INR (length l) * v.
Proof.
  intros A v. unfold total. induction l as [|x l IH].
  - cbn. lra.
  - cbn [map fold_right length]. rewrite IH, S_INR. lra.
Qed.

Lemma filter_all_or_none :
  forall (b : bool) responses,
    Forall (fun r => is_correct r = b) responses ->
    length (filter is_correct responses) = if b then length responses else 0%nat.
Proof.
  intros b responses H. induction H as [|r rs Hr Hrs IH]; cbn [filter length].
  - destruct b; reflexivity.
  - rewrite Hr. destruct b; cbn [length]; lia.
Qed.

(** A session whose answers are all right, or all wrong, has no variance:
    its consistency term is 100. *)
Lemma uniform_session_score :
  forall (b : bool) responses difficultyScores,
    responses <> [] ->
    Forall (fun r => is_correct r = b) responses ->
    computeOverallConfidenceScore responses difficultyScores
    = Math_round
        ((if b then 100 else 0) * 0.6 + 100 * 0.25
         + Rmax 0
             (100 - fold_left (fun sum r => sum + total_time r) responses 0
                    / INR (length responses) / 120 * 100) * 0.15).
Proof.
  intros b responses difficultyScores Hne Hall.
  pose proof (length_positive responses Hne) as Hlen. apply lt_0_INR in Hlen.
  unfold computeOverallConfidenceScore. rewrite (length_nonzero responses Hne).
  cbv zeta.
  set (v := if b then 1 else 0).
  assert (Hmap : map (fun r => if is_correct r then 1 else 0) responses
                 = map (fun _ => v) responses).
  { apply map_ext_in. intros r Hr. rewrite Forall_forall in Hall.
    rewrite (Hall r Hr). reflexivity. }
  rewrite Hmap, length_map.
  rewrite (reduce_sum (fun x => x) (map (fun _ => v) responses) 0).
  rewrite map_id, total_constant, Rplus_0_l.
  replace (INR (length responses) * v / INR (length responses)) with v
    by (field; lra).
  rewrite (reduce_sum (fun val => (val - v) ^ 2) (map (fun _ => v) responses) 0).
  rewrite map_map, total_constant, Rplus_0_l.
  replace (INR (length responses) * (v - v) ^ 2 / INR (length responses)) with 0
    by (field; lra).
  rewrite sqrt_0, Rmult_0_l, Rminus_0_r.
  rewrite (Rmax_0_left 100) by lra.
  rewrite (filter_all_or_none b responses Hall).
  f_equal. f_equal. f_equal.
  destruct b.
  - field. lra.
  - cbn [INR]. field. lra.
Qed.

(** X11.  A non-empty session answered all right or all wrong scores within
    15 points above a base, 85 when all right and 25 when all wrong: even a
    session with every answer wrong has an overall confidence score of at
    least 25. *)
Theorem uniform_session_score_range :
  forall (b : bool) responses difficultyScores,
    responses <> [] ->
    Forall (fun r => is_correct r = b) responses ->
    Forall (fun r => 0 <= total_time r) responses ->
    let base := if b then 85 else 25 in
    base <= computeOverallConfidenceScore responses difficultyScores <= base + 15.
Proof.
  intros b responses difficultyScores Hne Hall Htime base.
  rewrite (uniform_session_score b responses difficultyScores Hne Hall).
  pose proof (speed_bounds responses Hne Htime) as Hspeed.
  unfold base. destruct b.
  - replace (85 + 15) with (IZR 100) by lra.
    replace 85 with (IZR 85) at 1 by reflexivity.
    apply Math_round_bounds. lra.
  - replace (25 + 15) with (IZR 40) by lra.
    replace 25 with (IZR 25) at 1 by reflexivity.
    apply Math_round_bounds. lra.
Qed.

Lemma uniform_session_score_range_witness :
  25 <= computeOverallConfidenceScore
          [ mkResponse false 80 30; mkResponse false 60 200 ] initial_scores
     <= 25 + 15.
Proof.
  apply (uniform_session_score_range false
           [ mkResponse false 80 30; mkResponse false 60 200 ] initial_scores).
  - discriminate.
  - repeat constructor.
  - repeat constructor; cbn; lra.
Defined.

(** ** determineUnderstandingLevel and generateInterpretation *)

(** Turn every comparison of the context and of the goal into its
    inequality, one case per outcome. *)
Ltac split_comparisons :=
  repeat (match goal with
          | |- context [?cmp ?x ?y] =>
              match cmp with Rgeb => idtac | Rgtb => idtac | Rltb => idtac end;
              let E := fresh "E" in
              destruct (cmp x y) eqn:E;
              first [ apply Rgeb_true in E | apply Rgeb_false in E
                    | apply Rgtb_true in E | apply Rgtb_false in E
                    | apply Rltb_true in E | apply Rltb_false in E ]
          end;
          cbn [andb orb];
          try (exfalso; lra)).

(** X12.  The level never drops when accuracies rise: if each tier of one
    record is at least as accurate as in another, its level is at least as
    high, in the order beginner, improving, job-ready. *)
Theorem understanding_level_monotone :
  forall scores scores',
    accuracy (scores_easy scores) <= accuracy (scores_easy scores') ->
    accuracy (scores_moderate scores) <= accuracy (scores_moderate scores') ->
    accuracy (scores_hard scores) <= accuracy (scores_hard scores') ->
    (level_rank (determineUnderstandingLevel scores)
     <= level_rank (determineUnderstandingLevel scores'))%nat.
Proof.
  intros scores scores' He Hm Hh. unfold determineUnderstandingLevel.
  split_comparisons; cbn [andb level_rank]; try lia; exfalso; lra.
Qed.

Lemma understanding_level_monotone_witness :
  (level_rank (determineUnderstandingLevel initial_scores)
   <= level_rank
        (determineUnderstandingLevel
           (mkScores (mkDifficultyScore easy 1 1 100 80 10)
              (empty_score moderate) (empty_score hard))))%nat.
Proof.
  apply (understanding_level_monotone initial_scores
           (mkScores (mkDifficultyScore easy 1 1 100 80 10)
              (empty_score moderate) (empty_score hard))); cbn; lra.
Defined.

Lemma empty_tier_accuracy :
  forall responses questions d,
    tier_total d (answered responses questions) = 0%nat ->
    accuracy (score_of (computeDifficultyScores responses questions) d) = 0.
Proof.
  intros responses questions d Hnone.
  destruct (tier_report responses questions d) as (_ & _ & _ & Ha & _).
  rewrite Ha, Hnone. reflexivity.
Qed.

(** X13.  A session in which no easy question was answered is rated
    beginner, and so is one with no moderate question; a session with no hard
    question is never rated job-ready. *)
Theorem missing_tier_caps_level :
  forall responses questions,
    let pairs := answered responses questions in
    let level :=
      determineUnderstandingLevel (computeDifficultyScores responses questions) in
    (tier_total easy pairs = 0%nat -> level = beginner)
    /\ (tier_total moderate pairs = 0%nat -> level = beginner)
    /\ (tier_total hard pairs = 0%nat -> level <> job_ready).
Proof.
  intros responses questions pairs level. unfold level, determineUnderstandingLevel.
  repeat split; intros Hnone;
    apply empty_tier_accuracy in Hnone; cbn [score_of] in Hnone; rewrite Hnone;
    split_comparisons; cbn [andb]; try reflexivity; try discriminate; exfalso; lra.
Qed.

Lemma interpretations_distinct :
  industry_ready_interpretation <> basics_clear_interpretation
  /\ industry_ready_interpretation <> conceptually_strong_interpretation
  /\ industry_ready_interpretation <> solid_foundation_interpretation
  /\ industry_ready_interpretation <> weak_foundation_interpretation
  /\ industry_ready_interpretation <> developing_interpretation
  /\ weak_foundation_interpretation <> basics_clear_interpretation
  /\ weak_foundation_interpretation <> conceptually_strong_interpretation
  /\ weak_foundation_interpretation <> solid_foundation_interpretation
  /\ weak_foundation_interpretation <> developing_interpretation.
Proof. repeat split; discriminate. Qed.

(** X14.  The interpretation agrees with the level at both ends: the
    industry-ready message is given exactly when easy and moderate accuracy
    are at least 80 and hard accuracy at least 70, and then the level is
    job-ready; the message that the foundation needs strengthening is only
    given to a beginner. *)
Theorem interpretation_agrees_with_level :
  forall scores,
    let e := accuracy (scores_easy scores) in
    let m := accuracy (scores_moderate scores) in
    let h := accuracy (scores_hard scores) in
    (generateInterpretation scores = industry_ready_interpretation
     <-> e >= 80 /\ m >= 80 /\ h >= 70)
    /\ (generateInterpretation scores = industry_ready_interpretation ->
        determineUnderstandingLevel scores = job_ready)
    /\ (generateInterpretation scores = weak_foundation_interpretation ->
        determineUnderstandingLevel scores = beginner).
Proof.
  intros scores e m h.
  destruct interpretations_distinct as (D1 & D2 & D3 & D4 & D5 & D6 & D7 & D8 & D9).
  unfold generateInterpretation, determineUnderstandingLevel. fold e m h.
  split_comparisons; cbn [andb orb];
    repeat split; intros; try reflexivity; try congruence; try lra;
    try (exfalso; lra);
    try match goal with
        | H : _ /\ _ /\ _ |- _ => destruct H as (? & ? & ?); exfalso; lra
        end.
Qed.

(** ** generateRecommendations: which messages are given *)

(** No message for a weakness is the default message, and none of the
    messages about topics or calibration is a message about a tier. *)
Lemma messages_distinct :
  hard_message <> default_message
  /\ moderate_message <> default_message
  /\ easy_message <> default_message
  /\ overconfident_message <> default_message
  /\ underconfident_message <> default_message
  /\ (forall t, weak_message t <> default_message)
  /\ (forall t, weak_message t <> hard_message
                /\ weak_message t <> moderate_message
                /\ weak_message t <> easy_message)
  /\ (overconfident_message <> hard_message
      /\ overconfident_message <> moderate_message
      /\ overconfident_message <> easy_message)
  /\ (underconfident_message <> hard_message
      /\ underconfident_message <> moderate_message
      /\ underconfident_message <> easy_message)
  /\ (default_message <> hard_message
      /\ default_message <> moderate_message
      /\ default_message <> easy_message).
Proof. repeat split; try intros t; discriminate. Qed.

Lemma candidate_cases :
  forall difficultyScores conceptMastery x,
    In x (candidate_messages difficultyScores conceptMastery) ->
    (x = hard_message /\ accuracy (scores_hard difficultyScores) < 60)
    \/ (x = moderate_message /\ accuracy (scores_moderate difficultyScores) < 60)
    \/ (x = easy_message /\ accuracy (scores_easy difficultyScores) < 70)
    \/ (exists t, x = weak_message t)
    \/ x = overconfident_message
    \/ x = underconfident_message.
Proof.
  intros difficultyScores conceptMastery x Hin.
  unfold candidate_messages, when in Hin.
  repeat (apply in_app_or in Hin as [Hin | Hin]).
  - destruct (Rltb _ 60) eqn:E; [|contradiction].
    apply Rltb_true in E. destruct Hin as [<- | []]. auto.
  - destruct (Rltb _ 60) eqn:E; [|contradiction].
    apply Rltb_true in E. destruct Hin as [<- | []]. auto.
  - destruct (Rltb _ 70) eqn:E; [|contradiction].
    apply Rltb_true in E. destruct Hin as [<- | []]. auto.
  - destruct (map concept _); [contradiction|].
    destruct Hin as [<- | []]. right. right. right. left. eexists. reflexivity.
  - destruct (Rgtb _ _); [destruct Hin as [<- | []]; auto 10|].
    destruct (Rgtb _ _); [destruct Hin as [<- | []]; auto 10 | contradiction].
Qed.

Lemma In_firstn :
  forall {A : Type} n (l : list A) x, In x (firstn n l) -> In x l.
Proof.
  intros A n. induction n as [|n IH]; intros [|y l] x H; cbn in *; try contradiction.
  destruct H as [H | H]; [left; exact H | right; apply IH; exact H].
Qed.

(** X16.  When all three tiers are under their thresholds the list is the
    three tier messages and nothing else: the messages about weak topics and
    about calibration are cut off. *)
Theorem tier_messages_crowd_out :
  forall difficultyScores conceptMastery,
    accuracy (scores_hard difficultyScores) < 60 ->
    accuracy (scores_moderate difficultyScores) < 60 ->
    accuracy (scores_easy difficultyScores) < 70 ->
    generateRecommendations difficultyScores conceptMastery
    = [ hard_message; moderate_message; easy_message ].
Proof.
  intros difficultyScores conceptMastery Hh Hm He.
  rewrite recommendations_are_candidates. unfold candidate_messages.
  apply Rltb_true in Hh, Hm, He. rewrite Hh, Hm, He. reflexivity.
Qed.

Lemma tier_messages_crowd_out_witness :
  generateRecommendations initial_scores
    [ mkConceptMastery "arrays" 0 0 0 0 needs_revision 1 ]
  = [ hard_message; moderate_message; easy_message ].
Proof.
  apply (tier_messages_crowd_out initial_scores
           [ mkConceptMastery "arrays" 0 0 0 0 needs_revision 1 ]); cbn; lra.
Defined.

(** X17.  A learner rated job-ready is given none of the three messages
    about a tier. *)
Theorem job_ready_has_no_tier_message :
  forall difficultyScores conceptMastery,
    determineUnderstandingLevel difficultyScores = job_ready ->
    let recommendations := generateRecommendations difficultyScores conceptMastery in
    ~ In hard_message recommendations
    /\ ~ In moderate_message recommendations
    /\ ~ In easy_message recommendations.
Proof.
  intros difficultyScores conceptMastery Hlevel recommendations.
  assert (Hacc : accuracy (scores_easy difficultyScores) >= 80
                 /\ accuracy (scores_moderate difficultyScores) >= 70
                 /\ accuracy (scores_hard difficultyScores) >= 60).
  { unfold determineUnderstandingLevel in Hlevel. revert Hlevel.
    split_comparisons; cbn [andb]; intros; try discriminate; lra. }
  destruct Hacc as (He & Hm & Hh).
  destruct messages_distinct
    as (_ & _ & _ & _ & _ & _ & Dw & (Do1 & Do2 & Do3) & (Du1 & Du2 & Du3)
        & (Dd1 & Dd2 & Dd3)).
  assert (Hno : forall x,
            In x recommendations ->
            x <> hard_message /\ x <> moderate_message /\ x <> easy_message).
  { intros x Hin. unfold recommendations in Hin.
    rewrite recommendations_are_candidates in Hin. apply In_firstn in Hin.
    destruct (candidate_messages difficultyScores conceptMastery) as [|y ys] eqn:C.
    - destruct Hin as [<- | []]. auto.
    - rewrite <- C in Hin. apply candidate_cases in Hin
        as [[_ H] | [[_ H] | [[_ H] | [[t ->] | [-> | ->]]]]];
        try (exfalso; lra); auto. }
  repeat split; intros Hin; apply Hno in Hin; tauto.
Qed.

Lemma job_ready_has_no_tier_message_witness :
  let scores :=
    mkScores (mkDifficultyScore easy 1 1 100 80 10)
      (mkDifficultyScore moderate 1 1 100 80 10)
      (mkDifficultyScore hard 1 1 100 80 10) in
  let recommendations := generateRecommendations scores [] in
  ~ In hard_message recommendations
  /\ ~ In moderate_message recommendations
  /\ ~ In easy_message recommendations.
Proof.
  apply (job_ready_has_no_tier_message
           (mkScores (mkDifficultyScore easy 1 1 100 80 10)
              (mkDifficultyScore moderate 1 1 100 80 10)
              (mkDifficultyScore hard 1 1 100 80 10)) []).
  unfold determineUnderstandingLevel. cbn [scores_easy scores_moderate scores_hard accuracy].
  assert (E1 : Rgeb 100 80 = true) by (apply Rgeb_true; lra).
  assert (E2 : Rgeb 100 70 = true) by (apply Rgeb_true; lra).
  assert (E3 : Rgeb 100 60 = true) by (apply Rgeb_true; lra).
  rewrite E1, E2, E3. reflexivity.
Defined.

(** ** computeDifficultyAwareAnalytics *)

Lemma tier_accuracy_range :
  forall responses questions d,
    0 <= accuracy (score_of (computeDifficultyScores responses questions) d) <= 100.
Proof.
  intros responses questions d.
  destruct (tier_report responses questions d) as (_ & _ & _ & Ha & _).
  rewrite Ha. destruct (0 <? _)%nat eqn:E; [|lra].
  apply Nat.ltb_lt in E. apply percentage_bounds; [apply tier_correct_le_total | exact E].
Qed.

Lemma Math_max3_min3_spread :
  forall a b c,
    0 <= a <= 100 -> 0 <= b <= 100 -> 0 <= c <= 100 ->
    0 <= Math_max3 a b c - Math_min3 a b c <= 100.
Proof.
  intros a b c Ha Hb Hc. unfold Math_max3, Math_min3, Rmax, Rmin.
  repeat match goal with
         | |- context [Rle_dec ?x ?y] => destruct (Rle_dec x y)
         end; lra.
Qed.

(** X18.  Whatever the input, the rounded overall accuracy, accuracy
    consistency and time consistency are integers between 0 and 100. *)
Theorem analytics_metrics_are_percentages :
  forall responses questions,
    let analytics := computeDifficultyAwareAnalytics responses questions in
    (0 <= overall_accuracy analytics <= 100
     /\ exists z, overall_accuracy analytics = IZR z)
    /\ (0 <= accuracy_consistency analytics <= 100
        /\ exists z, accuracy_consistency analytics = IZR z)
    /\ (0 <= time_consistency analytics <= 100
        /\ exists z, time_consistency analytics = IZR z).
Proof.
  intros responses questions analytics. unfold analytics, computeDifficultyAwareAnalytics.
  cbn [overall_accuracy accuracy_consistency time_consistency].
  set (scores := computeDifficultyScores responses questions).
  assert (Hacc : 0 <= (if (0 <? length responses)%nat
                       then INR (length (filter is_correct responses))
                            / INR (length responses) * 100
                       else 0) <= 100).
  { destruct (0 <? length responses)%nat eqn:E; [|lra].
    apply Nat.ltb_lt in E. apply percentage_bounds; [apply filter_length_le | exact E]. }
  pose proof (Math_max3_min3_spread _ _ _
                (tier_accuracy_range responses questions easy)
                (tier_accuracy_range responses questions moderate)
                (tier_accuracy_range responses questions hard)) as Hspread.
  cbn [score_of] in Hspread. fold scores in Hspread.
  assert (Htime : 0 <= Rmin 100
                         ((Rabs (avg_time (scores_easy scores)
                                 - avg_time (scores_moderate scores))
                           + Rabs (avg_time (scores_moderate scores)
                                   - avg_time (scores_hard scores))) / 2) <= 100).
  { pose proof (Rabs_pos (avg_time (scores_easy scores)
                          - avg_time (scores_moderate scores))).
    pose proof (Rabs_pos (avg_time (scores_moderate scores)
                          - avg_time (scores_hard scores))).
    unfold Rmin. destruct (Rle_dec 100 _); lra. }
  split; [|split]; (split; [|apply Math_round_interval_integer]);
    apply (Math_round_bounds _ 0 100); lra.
Qed.

(** The term one response adds to the alignment sum. *)
Lemma alignment_sum :
  forall responses,
    fold_left add_alignment responses 0
    = total (map (fun r => 100 - Rabs (user_confidence r
                                       - (if is_correct r then 80 else 40)))
               responses).
Proof.
  intros responses.
  change (fold_left add_alignment responses 0)
    with (fold_left
            (fun acc r => acc + (100 - Rabs (user_confidence r
                                             - (if is_correct r then 80 else 40))))
            responses 0).
  rewrite reduce_sum. lra.
Qed.

Lemma alignment_term_range :
  forall r,
    0 <= user_confidence r <= 100 ->
    20 <= 100 - Rabs (user_confidence r - (if is_correct r then 80 else 40)) <= 100.
Proof.
  intros r Hc. destruct (is_correct r); unfold Rabs; destruct (Rcase_abs _); lra.
Qed.

(** X19.  For a session with at least one response and every confidence
    between 0 and 100, the confidence alignment is a finite integer between
    20 and 100. *)
Theorem confidence_alignment_range :
  forall responses questions,
    responses <> [] ->
    Forall (fun r => 0 <= user_confidence r <= 100) responses ->
    exists z,
      confidence_alignment (computeDifficultyAwareAnalytics responses questions)
      = Some (IZR z)
      /\ 20 <= IZR z <= 100.
Proof.
  intros responses questions Hne Hconf.
  unfold computeDifficultyAwareAnalytics. cbn [confidence_alignment].
  rewrite alignment_sum.
  set (terms := map _ responses).
  assert (Hterms : Forall (fun x => 20 <= x <= 100) terms).
  { unfold terms. clear - Hconf. induction Hconf as [|r rs Hr Hrs IH]; cbn [map].
    - constructor.
    - constructor; [apply alignment_term_range; exact Hr | exact IH]. }
  assert (Hlen : length terms = length responses) by apply length_map.
  assert (Hmean : 20 <= total terms / INR (length responses) <= 100).
  { rewrite <- Hlen. apply (mean_bounds 20 100 terms); [|exact Hterms].
    intros N. rewrite N in Hlen. destruct responses; [congruence | discriminate]. }
  destruct responses as [|r rs]; [congruence|].
  cbn [length divide_by_length option_map].
  destruct (Math_round_interval_integer (total terms / INR (S (length rs)))) as [z Ez].
  exists z. rewrite Ez. split; [reflexivity|]. rewrite <- Ez.
  apply (Math_round_bounds _ 20 100). exact Hmean.
Qed.

Lemma confidence_alignment_range_witness :
  exists z,
    confidence_alignment
      (computeDifficultyAwareAnalytics
         [ mkResponse true 90 10 ] [ mkQuestion "arrays" easy ])
    = Some (IZR z)
    /\ 20 <= IZR z <= 100.
Proof.
  apply (confidence_alignment_range
           [ mkResponse true 90 10 ] [ mkQuestion "arrays" easy ]).
  - discriminate.
  - repeat constructor; cbn; lra.
Defined.

Lemma level_of_initial_scores : determineUnderstandingLevel initial_scores = beginner.
Proof.
  unfold determineUnderstandingLevel. cbn [initial_scores scores_easy scores_moderate
    scores_hard empty_score accuracy].
  split_comparisons; reflexivity.
Qed.

Lemma interpretation_of_initial_scores :
  generateInterpretation initial_scores = weak_foundation_interpretation.
Proof.
  unfold generateInterpretation. cbn [initial_scores scores_easy scores_moderate
    scores_hard empty_score accuracy].
  split_comparisons; reflexivity.
Qed.

(** X20.  For a session without responses, whatever the questions, the
    analytics are: three empty tiers, no topic, overall confidence score and
    accuracy 0, level beginner, both consistencies 100, the message that the
    foundation needs strengthening, and the three tier recommendations; the
    confidence alignment alone is not a number, being 0 divided by 0. *)
Theorem analytics_of_empty_session :
  forall questions,
    computeDifficultyAwareAnalytics [] questions
    = mkAnalytics (empty_score easy) (empty_score moderate) (empty_score hard)
        [] 0 0 beginner 100 100 None
        weak_foundation_interpretation
        [ hard_message; moderate_message; easy_message ].
Proof.
  intros questions. unfold computeDifficultyAwareAnalytics.
  change (computeDifficultyScores [] questions) with initial_scores.
  change (computeConceptMastery [] questions) with (@nil ConceptMastery).
  rewrite level_of_initial_scores, interpretation_of_initial_scores.
  assert (Hrec : generateRecommendations initial_scores []
                 = [ hard_message; moderate_message; easy_message ]).
  { rewrite recommendations_are_candidates. unfold candidate_messages.
    cbn [initial_scores scores_easy scores_moderate scores_hard empty_score accuracy].
    assert (L60 : Rltb 0 60 = true) by (apply Rltb_true; lra).
    assert (L70 : Rltb 0 70 = true) by (apply Rltb_true; lra).
    rewrite L60, L70. reflexivity. }
  rewrite Hrec.
  cbn [length filter Nat.ltb Nat.leb fold_left divide_by_length option_map
       initial_scores scores_easy scores_moderate scores_hard empty_score
       accuracy avg_time].
  assert (R0 : Math_round 0 = 0) by (apply (Math_round_eq 0 0%Z); lra).
  assert (R1 : Math_round (100 - (Math_max3 0 0 0 - Math_min3 0 0 0)) = 100).
  { apply (Math_round_eq _ 100%Z).
    unfold Math_max3, Math_min3, Rmax, Rmin.
    destruct (Rle_dec 0 0); lra. }
  assert (R2 : Math_round (100 - Rmin 100 ((Rabs (0 - 0) + Rabs (0 - 0)) / 2)) = 100).
  { apply (Math_round_eq _ 100%Z).
    rewrite Rminus_diag, Rabs_R0. unfold Rmin.
    destruct (Rle_dec 100 _); lra. }
  rewrite R0, R1, R2. reflexivity.
Qed.

Lemma fst_combine :
  forall {A B : Type} (l : list A) (l' : list B),
    (length l <= length l')%nat -> map fst (combine l l') = l.
Proof.
  intros A B. induction l as [|x l IH]; intros [|y l'] H; cbn in *; try reflexivity.
  - lia.
  - f_equal. apply IH. lia.
Qed.

Lemma filter_fst_length :
  forall (pairs : list (QuestionResponse * Question)),
    length (filter (fun p => is_correct (fst p)) pairs)
    = length (filter is_correct (map fst pairs)).
Proof.
  induction pairs as [|p pairs IH]; cbn [filter map]; [reflexivity|].
  destruct (is_correct (fst p)); cbn [length]; congruence.
Qed.

(** X21.  When every response has a question (there are at least as many
    questions as responses), the three tiers of the analytics count between
    them exactly the responses and exactly the correct responses: their
    [total_questions] add up to [responses.length] and their [correct] to
    [totalCorrect], the two counts the overall accuracy is computed from. *)
Theorem tier_counts_pool_to_overall_counts :
  forall responses questions,
    (length responses <= length questions)%nat ->
    let analytics := computeDifficultyAwareAnalytics responses questions in
    (total_questions (analytics_easy analytics)
     + total_questions (analytics_moderate analytics)
     + total_questions (analytics_hard analytics))%nat
    = length responses
    /\ (correct (analytics_easy analytics) + correct (analytics_moderate analytics)
        + correct (analytics_hard analytics))%nat
       = length (filter is_correct responses).
Proof.
  intros responses questions Hlen analytics.
  destruct (tier_report responses questions easy) as (_ & Te & Ce & _).
  destruct (tier_report responses questions moderate) as (_ & Tm & Cm & _).
  destruct (tier_report responses questions hard) as (_ & Th & Ch & _).
  cbn [score_of] in *.
  unfold analytics, computeDifficultyAwareAnalytics.
  cbn [analytics_easy analytics_moderate analytics_hard].
  rewrite Te, Tm, Th, Ce, Cm, Ch, tier_totals_sum, tier_corrects_sum.
  rewrite filter_fst_length. unfold answered.
  rewrite length_combine, fst_combine by exact Hlen. split; [lia | reflexivity].
Qed.

Lemma tier_counts_pool_to_overall_counts_witness :
  let responses := [ mkResponse true 90 10; mkResponse false 40 15 ] in
  let questions :=
    [ mkQuestion "arrays" easy; mkQuestion "loops" hard; mkQuestion "trees" hard ] in
  let analytics := computeDifficultyAwareAnalytics responses questions in
  (total_questions (analytics_easy analytics)
   + total_questions (analytics_moderate analytics)
   + total_questions (analytics_hard analytics))%nat
  = length responses
  /\ (correct (analytics_easy analytics) + correct (analytics_moderate analytics)
      + correct (analytics_hard analytics))%nat
     = length (filter is_correct responses).
Proof.
  apply (tier_counts_pool_to_overall_counts
           [ mkResponse true 90 10; mkResponse false 40 15 ]
           [ mkQuestion "arrays" easy; mkQuestion "loops" hard;
             mkQuestion "trees" hard ]).
  cbn. lia.
Defined.

(** * The rounded outputs, in binary64 *)

Module Binary64Facts.

Import PrimFloat.
Import Binary64.
#[local] Open Scope float_scope.
#[local] Set Warnings "-inexact-float".

(** A running sum is the sum of the terms, added in the same order. *)
Lemma reduce_total :
  forall {A : Type} (f : A -> float) (l : list A) (start : float),
    fold_left (fun acc x => acc + f x) l start = fold_left add (map f l) start.
Proof.
  intros A f. induction l as [|x l IH]; intros start; cbn [fold_left map].
  - reflexivity.
  - apply IH.
Qed.

(** C7.  For a session with at least one response the score is the rounded
    weighted sum of accuracy, consistency and speed, each computed in
    binary64: accuracy is the fraction correct times 100, consistency is
    [max(0, 100 - 100 * stddev)] for the population standard deviation of the
    0/1 correctness sequence, and speed is
    [max(0, 100 - mean_time / 120 * 100)].  Ten correct responses of 30
    seconds each score 96. *)
Theorem confidence_score_formula_binary64 :
  (forall responses difficultyScores,
     responses <> [] ->
     let accuracy_score := fraction_correct responses * 100 in
     let consistency :=
       Math_max 0 (100 - population_stddev (correctness responses) * 100) in
     let speed := Math_max 0 (100 - mean (map total_time responses) / 120 * 100) in
     computeOverallConfidenceScore responses difficultyScores
     = Math_round (accuracy_score * 0.6 + consistency * 0.25 + speed * 0.15))
  /\ (forall difficultyScores,
        computeOverallConfidenceScore scenario_ten_correct difficultyScores = 96).
Proof.
  split.
  - intros responses difficultyScores Hne. cbv zeta.
    unfold computeOverallConfidenceScore. rewrite (length_nonzero responses Hne).
    fold (correctness responses).
    rewrite (reduce_total (fun val => Math_pow2 (val - _)) (correctness responses) 0).
    rewrite (reduce_total total_time responses 0).
    unfold population_stddev, mean, total, fraction_correct, Math_pow2.
    rewrite !length_map. reflexivity.
  - intros difficultyScores. vm_compute. reflexivity.
Qed.

Lemma confidence_score_formula_binary64_witness :
  let responses := [ mkResponse true 80 30; mkResponse false 60 45 ] in
  computeOverallConfidenceScore responses
    (mkScores (mkDifficultyScore easy 0 0 0 0 0) (mkDifficultyScore moderate 0 0 0 0 0)
       (mkDifficultyScore hard 0 0 0 0 0))
  = Math_round
      (fraction_correct responses * 100 * 0.6
       + Math_max 0 (100 - population_stddev (correctness responses) * 100) * 0.25
       + Math_max 0 (100 - mean (map total_time responses) / 120 * 100) * 0.15).
Proof.
  apply (proj1 confidence_score_formula_binary64
           [ mkResponse true 80 30; mkResponse false 60 45 ]).
  discriminate.
Defined.

(** Nine correct answers of thirteen at 52 seconds each: the weighted sum
    falls just under 63.5 in binary64 and the score is 63. *)
Example score_of_nine_of_thirteen :
  forall difficultyScores,
    computeOverallConfidenceScore session_nine_of_thirteen difficultyScores = 63.
Proof. intros. vm_compute. reflexivity. Qed.

(** The pushes of the code are the candidate messages, cut to three, or the
    default message when there is none. *)
Lemma recommendations_are_candidates_binary64 :
  forall difficultyScores conceptMastery,
    generateRecommendations difficultyScores conceptMastery
    = firstn 3
        match candidate_messages difficultyScores conceptMastery with
        | [] => [default_message]
        | messages => messages
        end.
Proof.
  intros difficultyScores conceptMastery.
  unfold generateRecommendations, candidate_messages, calibration_messages,
    mean_accuracy, mean_confidence, weak_topics, slice, push, when.
  set (weak := filter (fun c => MasteryStatus_eqb (status c) needs_revision)
                 conceptMastery).
  cbn [skipn Nat.sub].
  destruct (accuracy (scores_hard difficultyScores) <? 60);
    destruct (accuracy (scores_moderate difficultyScores) <? 60);
    destruct (accuracy (scores_easy difficultyScores) <? 70);
    destruct (_ + 20 <? _); try destruct (_ + 20 <? _);
    destruct weak as [|w1 [|w2 weak']]; reflexivity.
Qed.

(** C8.  The list has between one and three entries.  It is the first
    three of the messages for: hard accuracy under 60, moderate accuracy
    under 60, easy accuracy under 70, the topics needing revision (the first
    two named), and a miscalibration one way or the other, in this order
    and at most one each; with no such message it is the default message
    alone. *)
Theorem recommendations_first_three_binary64 :
  forall difficultyScores conceptMastery,
    let recommendations := generateRecommendations difficultyScores conceptMastery in
    let hard_part := when (accuracy (scores_hard difficultyScores) <? 60) hard_message in
    let moderate_part :=
      when (accuracy (scores_moderate difficultyScores) <? 60) moderate_message in
    let easy_part := when (accuracy (scores_easy difficultyScores) <? 70) easy_message in
    let topic_part :=
      match weak_topics conceptMastery with
      | [] => []
      | topics => [weak_message (join ", " (firstn 2 topics))]
      end in
    let calibration_part := calibration_messages difficultyScores in
    let messages :=
      hard_part ++ moderate_part ++ easy_part ++ topic_part ++ calibration_part in
    (1 <= length recommendations <= 3)%nat
    /\ recommendations
       = firstn 3 match messages with
                  | [] => [default_message]
                  | _ => messages
                  end
    /\ (calibration_part = []
        \/ calibration_part = [overconfident_message]
        \/ calibration_part = [underconfident_message]).
Proof.
  intros difficultyScores conceptMastery. cbv zeta.
  rewrite recommendations_are_candidates_binary64.
  fold (candidate_messages difficultyScores conceptMastery).
  split; [|split].
  - rewrite length_firstn.
    destruct (candidate_messages difficultyScores conceptMastery) as [|m ms];
      cbn [length]; lia.
  - destruct (candidate_messages difficultyScores conceptMastery); reflexivity.
  - unfold calibration_messages.
    destruct (_ + 20 <? _); [auto|]. destruct (_ + 20 <? _); auto.
Qed.

(** With mean confidence and mean accuracy 20 apart on paper, the binary64
    means are 83.66666666666667 and 63.666666666666664: the test
    [avgConfidence > avgAccuracy + 20] holds and the over-confidence message
    is given. *)
Example recommendations_twenty_apart :
  generateRecommendations scores_twenty_apart [] = [ overconfident_message ].
Proof. vm_compute. reflexivity. Qed.

Lemma candidate_is_not_default :
  forall difficultyScores conceptMastery x,
    In x (candidate_messages difficultyScores conceptMastery) ->
    x <> default_message.
Proof.
  intros difficultyScores conceptMastery x Hin.
  destruct messages_distinct as (D1 & D2 & D3 & D4 & D5 & D6 & _).
  unfold candidate_messages, calibration_messages, when in Hin.
  repeat (apply in_app_or in Hin as [Hin | Hin]).
  - destruct (_ <? 60); [destruct Hin as [<- | []]; exact D1 | contradiction].
  - destruct (_ <? 60); [destruct Hin as [<- | []]; exact D2 | contradiction].
  - destruct (_ <? 70); [destruct Hin as [<- | []]; exact D3 | contradiction].
  - destruct (weak_topics conceptMastery); [contradiction|].
    destruct Hin as [<- | []]. apply D6.
  - destruct (_ + 20 <? _); [destruct Hin as [<- | []]; exact D4|].
    destruct (_ + 20 <? _); [destruct Hin as [<- | []]; exact D5 | contradiction].
Qed.

Lemma no_weak_topic :
  forall conceptMastery,
    weak_topics conceptMastery = []
    <-> Forall (fun c => status c <> needs_revision) conceptMastery.
Proof.
  unfold weak_topics.
  induction conceptMastery as [|c l IH]; cbn [filter map].
  - split; [constructor | reflexivity].
  - destruct (status c) eqn:S; cbn [MasteryStatus_eqb map]; split; intros H;
      try discriminate;
      try (constructor; [congruence | apply IH; exact H]);
      inversion H; subst; try congruence; apply IH; assumption.
Qed.

(** X15.  The default message is the whole list exactly when none of the
    five tests of the code holds: hard accuracy is not under 60, moderate
    accuracy not under 60, easy accuracy not under 70, no topic needs
    revision, and neither mean exceeds the other by more than 20, each test
    as binary64 decides it. *)
Theorem default_recommendation_iff_binary64 :
  forall difficultyScores conceptMastery,
    generateRecommendations difficultyScores conceptMastery = [default_message]
    <-> (accuracy (scores_hard difficultyScores) <? 60) = false
        /\ (accuracy (scores_moderate difficultyScores) <? 60) = false
        /\ (accuracy (scores_easy difficultyScores) <? 70) = false
        /\ Forall (fun c => status c <> needs_revision) conceptMastery
        /\ (mean_accuracy difficultyScores + 20 <? mean_confidence difficultyScores)
           = false
        /\ (mean_confidence difficultyScores + 20 <? mean_accuracy difficultyScores)
           = false.
Proof.
  intros difficultyScores conceptMastery.
  rewrite recommendations_are_candidates_binary64.
  rewrite <- no_weak_topic.
  pose proof (candidate_is_not_default difficultyScores conceptMastery) as Hnot.
  destruct (candidate_messages difficultyScores conceptMastery) as [|x xs] eqn:C.
  - split; [intros _ | reflexivity].
    unfold candidate_messages, calibration_messages, when in C.
    apply app_eq_nil in C as [H1 C]. apply app_eq_nil in C as [H2 C].
    apply app_eq_nil in C as [H3 C]. apply app_eq_nil in C as [H4 H5].
    destruct (_ <? 60); [discriminate H1|].
    destruct (_ <? 60); [discriminate H2|].
    destruct (_ <? 70); [discriminate H3|].
    destruct (weak_topics conceptMastery); [|discriminate H4].
    destruct (_ + 20 <? _); [discriminate H5|].
    destruct (_ + 20 <? _); [discriminate H5|].
    repeat split.
  - split.
    + intros H. exfalso. cbn [firstn] in H. injection H as Hx _.
      apply (Hnot x); [left; reflexivity | exact Hx].
    + intros (H1 & H2 & H3 & H4 & H5 & H6). exfalso.
      unfold candidate_messages, calibration_messages, when in C.
      rewrite H1, H2, H3, H4, H5, H6 in C. discriminate C.
Qed.

End Binary64Facts.
